(** * The agent control loops of the essay-writer lessons

    A shallow embedding of the two control loops of the notebooks

    - [Lesson_1/Lesson_1_Student.ipynb]: the ReAct loop ([Agent], [action_re],
      [known_actions], [query]);
    - [Lesson_6/Lesson_6_Bedrock.ipynb]: the essay graph ([AgentState], the five
      node functions, [should_continue] and the edges given to the builder).

    Python values are modelled as follows.

    - A [str] is the list of its code points.
    - An [int] is a [Z].
    - A function that may raise returns a [res]; a function that also talks
      to the outside world (the model, the search service, [print]) runs in
      the monad [M], which threads the list of events produced so far.
    - Whatever is not written in the notebooks is a field of an environment
      record: the replies of the model, the search results, [eval], the
      JSON decoder, the validation done by the [Queries] class, the text of
      the format instructions and the classification of the code points
      above 127. The replies may depend on everything that happened before
      them, so a field that answers a call receives the events so far. *)

From Stdlib Require Import ZArith NArith String Ascii List Lia Bool.
From stdpp Require Import base option list gmap.
Import ListNotations.
Local Open Scope Z_scope.

(** ** Python strings and results *)

Module Py.

Abbreviation str := (list N).

(** The code points of an ASCII literal. *)
Definition py (s : string) : str := map N_of_ascii (list_ascii_of_string s).
Arguments py : simpl never.

Definition quote : str := [34%N].

Definition eqc (a b : N) : bool := N.eqb a b.

(** [s.startswith(p)] *)
Fixpoint is_prefix (p s : str) : bool :=
  match p, s with
  | [], _ => true
  | _ :: _, [] => false
  | a :: p', b :: s' => eqc a b && is_prefix p' s'
  end.

(** The rest of [s] after the literal [p], when [s] starts with it. *)
Fixpoint strip_prefix (p s : str) : option str :=
  match p, s with
  | [], _ => Some s
  | _ :: _, [] => None
  | a :: p', b :: s' => if eqc a b then strip_prefix p' s' else None
  end.

(** [sub in s] *)
Fixpoint contains (s sub : str) : bool :=
  is_prefix sub s ||
  match s with
  | [] => false
  | _ :: s' => contains s' sub
  end.

(** [s.split] at the line feeds. *)
Fixpoint split_nl (s : str) : list str :=
  match s with
  | [] => [[]]
  | c :: s' =>
      if eqc c 10 then [] :: split_nl s'
      else match split_nl s' with
           | l :: ls => (c :: l) :: ls
           | [] => [[c]]
           end
  end.

(** [sep.join(l)] *)
Fixpoint join (sep : str) (l : list str) : str :=
  match l with
  | [] => []
  | [x] => x
  | x :: l' => x ++ sep ++ join sep l'
  end.

(** [s.find(sub)], counted from index [i] of the whole string. *)
Fixpoint find_from (s sub : str) (i : Z) : Z :=
  if is_prefix sub s then i
  else match s with
       | [] => -1
       | _ :: s' => find_from s' sub (i + 1)
       end.

Definition find (s sub : str) : Z := find_from s sub 0.

(** [s.rfind(sub)]: the highest index at which [sub] starts. *)
Fixpoint rfind_from (s sub : str) (i : Z) : Z :=
  let later := match s with
               | [] => -1
               | _ :: s' => rfind_from s' sub (i + 1)
               end in
  if 0 <=? later then later
  else if is_prefix sub s then i else -1.

Definition rfind (s sub : str) : Z := rfind_from s sub 0.

(** A slice bound as Python normalises it: a negative bound counts from the
    end, and every bound is clipped to the string. *)
Definition clip (len i : Z) : Z :=
  if i <? 0 then Z.max 0 (i + len) else Z.min i len.

(** [s[a:b]] *)
Definition slice (s : str) (a b : Z) : str :=
  let len := Z.of_nat (length s) in
  take (Z.to_nat (clip len b - clip len a)) (drop (Z.to_nat (clip len a)) s).

(** The longest prefix whose characters satisfy [f], and the rest. *)
Fixpoint span (f : N -> bool) (s : str) : str * str :=
  match s with
  | [] => ([], [])
  | c :: s' =>
      if f c then let '(a, b) := span f s' in (c :: a, b)
      else ([], s)
  end.

(** [s.strip()] restricted to the ASCII white space characters. *)
Definition is_space (c : N) : bool :=
  eqc c 32 || ((9 <=? c)%N && (c <=? 13)%N).

Definition lstrip (s : str) : str := snd (span is_space s).
Definition strip (s : str) : str := rev (lstrip (rev (lstrip s))).

(** Exceptions. [Exception] is the one the notebook raises itself; the
    others are raised by the interpreter and the libraries. *)
Inductive exn :=
  | Exception (msg : str)
  | KeyError (key : string)
  | PyError (kind : string).

Inductive res (A : Type) :=
  | Ok (a : A)
  | Raise (e : exn).
Arguments Ok {A} a.
Arguments Raise {A} e.

(** What a function hands back to its caller. *)
Inductive pyval :=
  | VNone
  | VStr (s : str).

(** Computations that log events of type [Ev] and may raise. *)
Definition M (Ev A : Type) : Type := list Ev -> res A * list Ev.

#[export] Instance M_ret {Ev} : MRet (M Ev) := fun A a t => (Ok a, t).

#[export] Instance M_bind {Ev} : MBind (M Ev) := fun A B f m t =>
  match m t with
  | (Ok a, t') => f a t'
  | (Raise e, t') => (Raise e, t')
  end.

Definition raise {Ev A} (e : exn) : M Ev A := fun t => (Raise e, t).

Definition emit {Ev} (e : Ev) : M Ev unit := fun t => (Ok tt, t ++ [e]).

Definition lift {Ev A} (r : res A) : M Ev A := fun t => (r, t).

(** [d[key]] on a dictionary whose entry for [key] is [field]. *)
Definition getitem {Ev A} (key : string) (field : option A) : M Ev A :=
  match field with
  | Some v => mret v
  | None => raise (KeyError key)
  end.

End Py.

Import Py.

(** ** Lesson 1: the ReAct loop *)

Module ReAct.

Inductive role := user | assistant.

(** A message of the session: its role and its text. *)
Record message := Message { msg_role : role; msg_text : str }.

Inductive event :=
  | Converse (system : list str) (msgs : list message) (reply : str)
  | Print (line : str)
  | Call (action : str) (input : str) (out : res str).

Abbreviation trace := (list event).

(** The collaborators of the notebook:
    - [alnum_hi c]: [str.isalnum] of a code point above 127;
    - [converse t sys msgs]: the text of the model's reply to the session
      [msgs] under the system prompt [sys], after the events [t];
    - [py_eval s]: [eval(s)], its value rendered by [str]. *)
Record Env := {
  alnum_hi : N -> bool;
  converse : trace -> list str -> list message -> str;
  py_eval : str -> res str
}.

Section Loop.

Variable E : Env.

(** *** The agent *)

Record Agent := { system : list str; messages : list message }.

(** [Agent.__init__]: a non-empty system prompt becomes one system block. *)
Definition Agent_init (sys : str) : Agent :=
  {| system := match sys with [] => [] | _ => [sys] end; messages := [] |}.

(** [Agent.execute]: one call of the model on the whole session. *)
Definition execute (self : Agent) : M event str := fun t =>
  let reply := converse E t (system self) (messages self) in
  (Ok reply, t ++ [Converse (system self) (messages self) reply]).

(** [Agent.__call__]: the user message is appended, the model is called,
    its reply is appended. *)
Definition Agent_call (self : Agent) (message : str) : M event (str * Agent) :=
  let self := {| system := system self;
                 messages := messages self ++ [Message user message] |} in
  result ← execute self;
  mret (result, {| system := system self;
                   messages := messages self ++ [Message assistant result] |}).

Definition prompt : str := py
"You run in a loop of Thought, Action, PAUSE, Observation.
At the end of the loop you output an Answer
Use Thought to describe your thoughts about the question you have been asked.
Use Action to run one of the actions available to you - then return PAUSE.
Observation will be the result of running those actions.

Your available actions are:

calculate:
e.g. calculate: 4 * 7 / 3
Runs a calculation and returns the number - uses Python so be sure to use floating point syntax if necessary

average_dog_weight:
e.g. average_dog_weight: Collie
returns average weight of a dog when given the breed

Example session:

Question: How much does a Bulldog weigh?
Thought: I should look the dogs weight using average_dog_weight
Action: average_dog_weight: Bulldog
PAUSE

You will be called again with this:

Observation: A Bulldog weights 51 lbs

You then output:

Answer: A bulldog weights 51 lbs".

(** *** The actions *)

Definition calculate (what : str) : res str := py_eval E what.

Definition average_dog_weight (name : str) : res str :=
  Ok (if contains (py "Scottish Terrier") name then
        py "Scottish Terriers average 20 lbs"
      else if contains (py "Border Collie") name then
        py "a Border Collies average weight is 37 lbs"
      else if contains (py "Toy Poodle") name then
        py "a toy poodles average weight is 7 lbs"
      else py "An average dog weights 50 lbs").

Definition known_actions : gmap str (str -> res str) :=
  <[py "calculate" := calculate]>
    (<[py "average_dog_weight" := average_dog_weight]> ∅).

(** *** The action pattern *)

Definition ascii_alnum (c : N) : bool :=
  ((48 <=? c) && (c <=? 57) || (65 <=? c) && (c <=? 90)
   || (97 <=? c) && (c <=? 122))%N.

(** [\w] of a [str] pattern: an alphanumeric character or the underscore. *)
Definition is_word (c : N) : bool :=
  (if (c <? 128)%N then ascii_alnum c else alnum_hi E c) || eqc c 95.

Definition not_newline (c : N) : bool := negb (eqc c 10).

(** [action_re.match(a)], with the two groups of a match. The pattern of
    [action_re] reads: start of the string, the literal [Action: ], a group
    of one or more [\w], a colon and a space, a group of any number of
    characters other than the line feed, end of the string. The first group
    stops at the first character that is not a word character, which must
    be the colon; the second stops at the first line feed; the end of the
    string is also recognised before a line feed that ends the string. *)
Definition action_re_match (a : str) : option (str * str) :=
  rest ← strip_prefix (py "Action: ") a;
  let '(name, rest) := span is_word rest in
  match name with
  | [] => None
  | _ :: _ =>
      rest ← strip_prefix (py ": ") rest;
      let '(arg, tail) := span not_newline rest in
      match tail with
      | [] | [_] => Some (name, arg)
      | _ => None
      end
  end.

(** The matches of the lines of [result] that match, in the order of the
    lines. *)
Definition actions (result : str) : list (str * str) :=
  omap action_re_match (split_nl result).

(** *** The loop *)

(** How one pass through the body of the [while] ends. *)
Inductive flow :=
  | Continue (bot : Agent) (next_prompt : str)
  | Return (v : pyval).

(** The call of a registered action, with its outcome put on record. *)
Definition call (action : str) (f : str -> res str) (action_input : str)
    : M event str := fun t =>
  (f action_input, t ++ [Call action action_input (f action_input)]).

(** The body of the [while] after [i += 1]. *)
Definition turn (bot : Agent) (next_prompt : str) : M event flow :=
  '(result, bot) ← Agent_call bot next_prompt;
  _ ← emit (Print result);
  match actions result with
  | (action, action_input) :: _ =>
      match known_actions !! action with
      | None =>
          raise (Exception
                   (py "Unknown action: " ++ action ++ py ": " ++ action_input))
      | Some f =>
          _ ← emit (Print (py " -- running " ++ action ++ py " " ++ action_input));
          observation ← call action f action_input;
          _ ← emit (Print (py "Observation: " ++ observation));
          mret (Continue bot (py "Observation: " ++ observation))
      end
  | [] => mret (Return VNone)
  end.

(** [while i < max_turns: i += 1; ...]. The result is [None] when [fuel]
    passes of the body were not enough to leave the loop. *)
Fixpoint while_turns (fuel : nat) (max_turns i : Z) (bot : Agent)
    (next_prompt : str) : M event (option pyval) :=
  match fuel with
  | O => mret None
  | S fuel =>
      if i <? max_turns then
        let i := i + 1 in
        r ← turn bot next_prompt;
        match r with
        | Continue bot next_prompt => while_turns fuel max_turns i bot next_prompt
        | Return v => mret (Some v)
        end
      else mret (Some VNone)
  end.

(** [query(question, max_turns)]. The loop is left after at most
    [max_turns] passes, see [query_returns]. *)
Definition query (question : str) (max_turns : Z) : M event (option pyval) :=
  while_turns (S (Z.to_nat max_turns)) max_turns 0 (Agent_init prompt) question.

(** The number of model invocations recorded in a trace. *)
Definition is_converse (e : event) : bool :=
  match e with Converse _ _ _ => true | _ => false end.



End Loop.

(** *** Observations on a session and on a trace *)

Definition other (r : role) : role :=
  match r with user => assistant | assistant => user end.

Definition role_eqb (a b : role) : bool :=
  match a, b with
  | user, user | assistant, assistant => true
  | _, _ => false
  end.

(** The roles of [msgs] alternate, starting with [r]. *)
Fixpoint alternates (r : role) (msgs : list message) : bool :=
  match msgs with
  | [] => true
  | m :: msgs => role_eqb (msg_role m) r && alternates (other r) msgs
  end.

(** A call of the model on the system prompt of the notebook and on a
    session whose roles alternate, that starts with [question] and ends
    with a user message. *)
Definition well_formed_call (question : str) (ev : event) : Prop :=
  match ev with
  | Converse sys msgs _ =>
      sys = [prompt] /\ alternates user msgs = true /\
      Nat.odd (length msgs) = true /\
      head msgs = Some (Message user question) /\
      exists before last_prompt, msgs = before ++ [Message user last_prompt]
  | _ => True
  end.

(** [name] occurs in [breed] as a run of consecutive characters. *)
Definition part_of (name breed : str) : Prop :=
  exists before after, breed = before ++ name ++ after.




End ReAct.

(** ** Lesson 6: the essay graph *)

Module Essay.

(** [AgentState]. A state is a dictionary: a key may be missing, which is
    [None] here; a key that is present holds a value of its declared type.
    [content] may also hold Python's [None], the inner [None] here, which
    the nodes take for the empty list. The dictionary a node returns has the
    same shape and holds the keys the node updates. *)
Record AgentState := {
  task : option str;
  plan : option str;
  draft : option str;
  critique : option str;
  content : option (option (list str));
  revision_number : option Z;
  max_revisions : option Z
}.

Inductive node := planner | generate | reflect | research_plan | research_critique.

(** Where an edge leads: a node, or the end of the run. *)
Inductive target := To (n : node) | END.

Inductive message :=
  | SystemMessage (text : str)
  | HumanMessage (text : str).

Inductive event :=
  | Enter (n : node)
  | Invoke (input : list message) (reply : str)
  | Search (query : str) (max_results : Z) (results : list str).

Abbreviation trace := (list event).

(** The collaborators of the notebook:
    - [model_invoke t input]: the text of [model.invoke(input)] after the
      events [t];
    - [tavily_search t q n]: the [content] entries of the results of
      [tavily.search(query=q, max_results=n)], in their order;
    - [format_instructions]: the text of [parser.get_format_instructions()];
    - [json_loads]: [json.loads], whose values have type [pyobj];
    - [Queries d]: the [queries] field of the [Queries] object built from
      the keys of [d]. *)
Record Env := {
  pyobj : Type;
  model_invoke : trace -> list message -> str;
  tavily_search : trace -> str -> Z -> list str;
  format_instructions : str;
  json_loads : str -> res pyobj;
  Queries : pyobj -> res (list str)
}.

Definition PLAN_PROMPT : str := py
"You are an expert writer tasked with writing a high level outline of an essay. Write such an outline for the user provided topic. Give an outline of the essay along with any relevant notes or instructions for the sections.".

(** [WRITER_PROMPT.format(content=content)] *)
Definition WRITER_PROMPT (content : str) : str := py
"You are an essay assistant tasked with writing excellent 5-paragraph essays.Generate the best essay possible for the user's request and the initial outline. If the user provides critique, respond with a revised version of your previous attempts. Utilize all the information below as needed: 

------
<content>
" ++ content ++ py "
</content>".

Definition REFLECTION_PROMPT : str := py
"You are a teacher grading an essay submission. Generate critique and recommendations for the user's submission. Provide detailed recommendations, including requests for length, depth, style, etc.".

(** *** Partial updates *)

(** The value of a key after an update: the value of the update when
    the update has the key, the old value otherwise. *)
Definition over {A} (new old : option A) : option A :=
  match new with
  | Some _ => new
  | None => old
  end.

(** The state after a node returned [update]. *)
Definition merge (state update : AgentState) : AgentState :=
  {| task := over (task update) (task state);
     plan := over (plan update) (plan state);
     draft := over (draft update) (draft state);
     critique := over (critique update) (critique state);
     content := over (content update) (content state);
     revision_number := over (revision_number update) (revision_number state);
     max_revisions := over (max_revisions update) (max_revisions state) |}.

(** The update that replaces [content], and nothing else, by the list [c]. *)
Definition content_update (c : list str) : AgentState :=
  {| task := None; plan := None; draft := None; critique := None;
     content := Some (Some c); revision_number := None; max_revisions := None |}.

(** The value of [state["content"] or []] once the key is known to be
    there. *)
Definition or_empty (c : option (list str)) : list str := default [] c.

Section Graph.

Variable E : Env.

Definition invoke (input : list message) : M event str := fun t =>
  let reply := model_invoke E t input in
  (Ok reply, t ++ [Invoke input reply]).

Definition search (query : str) (max_results : Z) : M event (list str) := fun t =>
  let results := tavily_search E t query max_results in
  (Ok results, t ++ [Search query max_results results]).

(** *** The nodes *)

Definition plan_node (state : AgentState) : M event AgentState :=
  tk ← getitem "task" (task state);
  response ← invoke [SystemMessage PLAN_PROMPT; HumanMessage tk];
  mret {| task := None; plan := Some response; draft := None; critique := None;
          content := None; revision_number := None; max_revisions := None |}.

(** The text handed to the decoder: [queries_text[json_start:json_end]],
    where [find] and [rfind] give -1 for a brace that is not there. *)
Definition json_str (queries_text : str) : str :=
  let json_start := find queries_text (py "{") in
  let json_end := rfind queries_text (py "}") + 1 in
  slice queries_text json_start json_end.

Definition parse_queries (queries_text : str) : res (list str) :=
  match json_loads E (json_str queries_text) with
  | Ok queries_dict => Queries E queries_dict
  | Raise e => Raise e
  end.

(** The loop over [parsed_queries.queries]: one search per query, every
    result appended to [content]. The Python list is the one the state
    holds when that one is not empty; the node returns it as the new value
    of [content], so the state ends with the same list either way. *)
Fixpoint search_all (queries : list str) (content : list str) : M event (list str) :=
  match queries with
  | [] => mret content
  | q :: queries =>
      results ← search q 2;
      search_all queries (content ++ results)
  end.

(** The lines the two research nodes share: from the reply of the model to
    the returned update. *)
Definition collect (state : AgentState) (queries_text : str) : M event AgentState :=
  queries ← lift (parse_queries queries_text);
  c ← getitem "content" (content state);
  c ← search_all queries (or_empty c);
  mret (content_update c).

Definition research_plan_input (tk : str) : list message :=
  [HumanMessage (py "Generate research queries based on the given task.
" ++ format_instructions E ++ py "
Task: " ++ tk ++ py "
")].

Definition research_plan_node (state : AgentState) : M event AgentState :=
  tk ← getitem "task" (task state);
  queries_text ← invoke (research_plan_input tk);
  collect state queries_text.

Definition generation_input (c : list str) (tk pl : str) : list message :=
  [SystemMessage (WRITER_PROMPT (join (py "

") c));
   HumanMessage (tk ++ py "

Here is my plan:

" ++ pl)].

Definition generation_node (state : AgentState) : M event AgentState :=
  c ← getitem "content" (content state);
  tk ← getitem "task" (task state);
  pl ← getitem "plan" (plan state);
  response ← invoke (generation_input (or_empty c) tk pl);
  mret {| task := None; plan := None; draft := Some response; critique := None;
          content := None;
          revision_number := Some (default 1 (revision_number state) + 1);
          max_revisions := None |}.

Definition reflection_node (state : AgentState) : M event AgentState :=
  d ← getitem "draft" (draft state);
  response ← invoke [SystemMessage REFLECTION_PROMPT; HumanMessage d];
  mret {| task := None; plan := None; draft := None; critique := Some response;
          content := None; revision_number := None; max_revisions := None |}.

Definition research_critique_input (cr : str) : list message :=
  [HumanMessage (py "Generate research queries based on the given critique.
" ++ format_instructions E ++ py "
Critique: " ++ cr ++ py "
")].

Definition research_critique_node (state : AgentState) : M event AgentState :=
  cr ← getitem "critique" (critique state);
  queries_text ← invoke (research_critique_input cr);
  collect state queries_text.

(** *** The edges *)

Definition should_continue (state : AgentState) : res target :=
  match revision_number state with
  | None => Raise (KeyError "revision_number")
  | Some r =>
      match max_revisions state with
      | None => Raise (KeyError "max_revisions")
      | Some m => if m <? r then Ok END else Ok (To reflect)
      end
  end.

(** [builder.add_node] *)
Definition node_fn (n : node) : AgentState -> M event AgentState :=
  match n with
  | planner => plan_node
  | generate => generation_node
  | reflect => reflection_node
  | research_plan => research_plan_node
  | research_critique => research_critique_node
  end.

Definition entry_point : node := planner.

(** [builder.add_edge] and [builder.add_conditional_edges] *)
Definition edge (n : node) (state : AgentState) : res target :=
  match n with
  | generate => should_continue state
  | planner => Ok (To research_plan)
  | research_plan => Ok (To generate)
  | reflect => Ok (To research_critique)
  | research_critique => Ok (To generate)
  end.

(** *** The run *)

(** The compiled graph run from node [n]: the node is executed on the
    state as the updates so far have left it, its update is merged, the
    edge out of the node picks what comes next. The graph library stops a
    run that needs more than [recursion_limit] node executions; the
    notebook leaves that limit at the default of the library. *)
Fixpoint run_from (recursion_limit : nat) (n : node) (state : AgentState)
    : M event AgentState :=
  match recursion_limit with
  | O => raise (PyError "GraphRecursionError")
  | S recursion_limit =>
      _ ← emit (Enter n);
      update ← node_fn n state;
      let state := merge state update in
      next ← lift (edge n state);
      match next with
      | END => mret state
      | To m => run_from recursion_limit m state
      end
  end.

(** [graph.stream(input, thread)] run to its end. *)
Definition stream (input : AgentState) (recursion_limit : nat) : M event AgentState :=
  run_from recursion_limit entry_point input.

End Graph.

(** Every reply of the model holds a payload that the decoder and the
    [Queries] class accept. *)
Definition always_parses (E : Env) : Prop :=
  forall t input, exists queries,
    parse_queries E (model_invoke E t input) = Ok queries.

(** The nodes of [k] revision cycles. *)
Fixpoint cycles (k : nat) : list node :=
  match k with
  | O => []
  | S k => reflect :: research_critique :: generate :: cycles k
  end.

(** A state from which the nodes after the planner can run: [task], [plan]
    and [content] are there, the revision number is [r] and the bound on
    the revisions is [N]. The planner itself does without [plan]. *)
Definition planned (state : AgentState) (r N : Z) : Prop :=
  is_Some (task state) /\ is_Some (plan state) /\ is_Some (content state) /\
  revision_number state = Some r /\ max_revisions state = Some N.

Definition unplanned (state : AgentState) (r N : Z) : Prop :=
  is_Some (task state) /\ is_Some (content state) /\
  revision_number state = Some r /\ max_revisions state = Some N.

(** The list [content] holds a list, not [None]. *)
Definition content_set (state : AgentState) : Prop :=
  exists l, content state = Some (Some l).

(** *** Observations on a trace *)

Definition visited (t : trace) : list node :=
  omap (fun e => match e with Enter n => Some n | _ => None end) t.

Definition node_eqb (a b : node) : bool :=
  match a, b with
  | planner, planner | generate, generate | reflect, reflect
  | research_plan, research_plan | research_critique, research_critique => true
  | _, _ => false
  end.

(** How many times [n] occurs in a list of nodes, and how many times it
    was executed in a trace. *)
Definition executions_of (n : node) (l : list node) : nat :=
  length (List.filter (node_eqb n) l).

Definition executions (n : node) (t : trace) : nat :=
  executions_of n (visited t).

(** The queries of the retrieval calls, in call order. *)
Definition searches (t : trace) : list str :=
  omap (fun e => match e with Search q _ _ => Some q | _ => None end) t.

(** The snippets the retrieval calls returned, in call order. *)
Definition snippets (t : trace) : list str :=
  mjoin (omap (fun e => match e with Search _ _ r => Some r | _ => None end) t).

(** A trace made of one search per query, in the order of the queries. *)
Definition one_search_each (evs : trace) (queries : list str) : Prop :=
  Forall2 (fun e q => exists results, e = Search q 2 results) evs queries.

(** What the nodes read as the content of a state. *)
Definition content_list (state : AgentState) : list str :=
  match content state with
  | Some c => or_empty c
  | None => []
  end.

(** The edges given to the builder, the edge out of [generate] taken
    towards [reflect]. *)
Definition is_edge (a b : node) : bool :=
  match a, b with
  | planner, research_plan | research_plan, generate | generate, reflect
  | reflect, research_critique | research_critique, generate => true
  | _, _ => false
  end.

(** Every node of the list is followed by a node that an edge leads to. *)
Fixpoint chain (l : list node) : bool :=
  match l with
  | a :: (b :: _) as rest => is_edge a b && chain rest
  | _ => true
  end.

(** The number of calls of the model recorded in a trace. *)
Definition is_invoke (e : event) : bool :=
  match e with Invoke _ _ => true | _ => false end.

Definition invokes (t : trace) : nat := length (List.filter is_invoke t).

(** A retrieval call, if the event is one, asks for two results. *)
Definition two_results (ev : event) : Prop :=
  match ev with
  | Search _ max_results _ => max_results = 2
  | _ => True
  end.



End Essay.

(** ** Sample environments

    Closed environments on which the loops can be run. Each fixes the
    replies of the collaborators at the few inputs the runs below reach. *)

Module Samples.

(** A model that gives the same reply to every call of the ReAct loop. No
    code point above 127 counts as a word character, and [eval] refuses
    every text. *)
Definition replying (reply : str) : ReAct.Env :=
  {| ReAct.alnum_hi := fun _ => false;
     ReAct.converse := fun _ _ _ => reply;
     ReAct.py_eval := fun _ => Raise (PyError "SyntaxError") |}.

Definition answering : ReAct.Env :=
  replying (py "Answer: A bulldog weights 51 lbs").

Definition acting : ReAct.Env :=
  replying (py "Thought: I should look the dogs weight using average_dog_weight
Action: average_dog_weight: Toy Poodle
PAUSE").

Definition flying : ReAct.Env :=
  replying (py "Action: fly: to the moon").

(** As [replying], with the code point 233, the letter e with an acute
    accent, counted among the alphanumeric characters as Python does. *)
Definition accented (reply : str) : ReAct.Env :=
  {| ReAct.alnum_hi := fun c => eqc c 233;
     ReAct.converse := fun _ _ _ => reply;
     ReAct.py_eval := fun _ => Raise (PyError "SyntaxError") |}.

Definition question : str := py "How much does a toy poodle weigh?".

(** The JSON text of an object whose only key, [queries], holds the list
    [qs] of strings (none of which needs an escape). *)
Definition payload (qs : list str) : str :=
  py "{" ++ quote ++ py "queries" ++ quote ++ py ": ["
  ++ join (py ", ") (map (fun q => quote ++ q ++ quote) qs) ++ py "]}".

(** A model that always answers [reply], a decoder that knows the payload
    of [qs] and rejects every other text, and a search service with one
    snippet per query. *)
Definition essay_env (reply : str) (qs : list str) : Essay.Env :=
  {| Essay.pyobj := list str;
     Essay.model_invoke := fun _ _ => reply;
     Essay.tavily_search := fun _ q _ => [py "about " ++ q];
     Essay.format_instructions := py "Answer with a JSON object.";
     Essay.json_loads := fun s =>
       if decide (s = payload qs) then Ok qs
       else Raise (PyError "JSONDecodeError");
     Essay.Queries := fun d => Ok d |}.

(** The model answers with the payload of [qs] after a few words. *)
Definition researching (qs : list str) : Essay.Env :=
  essay_env (py "Here are the queries: " ++ payload qs) qs.

(** The model answers without any payload. *)
Definition rambling : Essay.Env :=
  essay_env (py "I could not think of any query.") [].

(** The input of the notebook's run, with an empty [content]. *)
Definition essay_input (max_revisions : Z) : Essay.AgentState :=
  {| Essay.task := Some (py "what is the difference between langchain and langsmith");
     Essay.plan := None; Essay.draft := None; Essay.critique := None;
     Essay.content := Some None;
     Essay.revision_number := Some 1;
     Essay.max_revisions := Some max_revisions |}.

(** An input that already holds a note in [content], as a run does that is
    started again on the state of an earlier one. *)
Definition resumed_input : Essay.AgentState :=
  {| Essay.task := Some (py "what is the difference between langchain and langsmith");
     Essay.plan := None; Essay.draft := None; Essay.critique := None;
     Essay.content := Some (Some [py "an earlier note"]);
     Essay.revision_number := Some 1;
     Essay.max_revisions := Some 1 |}.

(** A state as the planner leaves it, without a revision number. *)
Definition unnumbered : Essay.AgentState :=
  {| Essay.task := Some (py "what is the difference between langchain and langsmith");
     Essay.plan := Some (py "1. Introduction 2. Comparison 3. Conclusion");
     Essay.draft := None; Essay.critique := None;
     Essay.content := Some (Some [py "LangSmith is a platform."]);
     Essay.revision_number := None;
     Essay.max_revisions := Some 2 |}.



(** An input without a revision number. *)
Definition unrevised_input : Essay.AgentState :=
  {| Essay.task := Some (py "what is the difference between langchain and langsmith");
     Essay.plan := None; Essay.draft := None; Essay.critique := None;
     Essay.content := Some None;
     Essay.revision_number := None;
     Essay.max_revisions := Some 2 |}.

Definition three_queries : list str := [py "a"; py "b"; py "c"].

End Samples.

(** ** Facts on strings *)

Module PyFacts.

Lemma eqc_true a b : eqc a b = true <-> a = b.
Proof. unfold eqc. apply N.eqb_eq. Qed.

Lemma strip_prefix_app p r : strip_prefix p (p ++ r) = Some r.
Proof.
  induction p as [|a p IH]; simpl; [reflexivity|].
  assert (H : eqc a a = true) by (apply eqc_true; reflexivity).
  rewrite H. exact IH.
Qed.

Lemma strip_prefix_Some p s r : strip_prefix p s = Some r -> s = p ++ r.
Proof.
  revert s. induction p as [|a p IH]; intros s H; simpl in H.
  - inversion H. reflexivity.
  - destruct s as [|b s]; [discriminate|].
    destruct (eqc a b) eqn:Hab; [|discriminate].
    apply eqc_true in Hab. subst b. simpl. f_equal. apply IH, H.
Qed.

Lemma span_app f a b :
  forallb f a = true ->
  (b = [] \/ exists c b', b = c :: b' /\ f c = false) ->
  span f (a ++ b) = (a, b).
Proof.
  intros Ha Hb. induction a as [|x a IH]; simpl in *.
  - destruct Hb as [->|(c & b' & -> & Hc)]; simpl; [reflexivity|].
    rewrite Hc. reflexivity.
  - apply andb_prop in Ha as [Hx Ha]. rewrite Hx, (IH Ha). reflexivity.
Qed.

Lemma span_spec f s a b :
  span f s = (a, b) ->
  s = a ++ b /\ forallb f a = true /\
  (b = [] \/ exists c b', b = c :: b' /\ f c = false).
Proof.
  revert a b. induction s as [|x s IH]; intros a b H; simpl in H.
  - inversion H; subst. auto.
  - destruct (f x) eqn:Hx.
    + destruct (span f s) as [a' b'] eqn:Hs. inversion H; subst.
      destruct (IH _ _ eq_refl) as (-> & Ha & Hb).
      simpl. rewrite Hx, Ha. auto.
    + inversion H; subst. repeat split; eauto.
Qed.

Lemma split_nl_nonempty s : split_nl s <> [].
Proof.
  destruct s as [|c s]; cbn; [discriminate|].
  destruct (eqc c 10); [discriminate|]. destruct (split_nl s); discriminate.
Qed.

(** Joining the lines of a text with line feeds gives the text back. *)
Lemma join_split_nl s : join [10%N] (split_nl s) = s.
Proof.
  induction s as [|c s IH]; [reflexivity|]. cbn [split_nl].
  pose proof (split_nl_nonempty s) as Hne.
  destruct (split_nl s) as [|l ls]; [congruence|].
  destruct (eqc c 10) eqn:Hc.
  - apply eqc_true in Hc. subst c.
    change (join [10%N] ([] :: l :: ls)) with (10%N :: join [10%N] (l :: ls)).
    rewrite IH. reflexivity.
  - destruct ls; cbn in *; congruence.
Qed.

(** No line of a text holds a line feed. *)
Lemma split_nl_lines s :
  Forall (fun l => forallb (fun c => negb (eqc c 10)) l = true) (split_nl s).
Proof.
  induction s as [|c s IH]; simpl.
  - repeat constructor.
  - destruct (eqc c 10) eqn:Hc.
    + constructor; [reflexivity | exact IH].
    + destruct (split_nl s) as [|l ls]; inversion IH; subst.
      * repeat constructor. simpl. rewrite Hc. reflexivity.
      * constructor; [|assumption]. simpl. rewrite Hc. simpl. assumption.
Qed.

(** The first element that [f] maps to a value decides the head of [omap]. *)
Lemma head_omap {A B} (f : A -> option B) (l : list A) (y : B) :
  head (omap f l) = Some y <->
  exists before x after,
    l = before ++ x :: after /\ Forall (fun z => f z = None) before /\ f x = Some y.
Proof.
  induction l as [|a l IH]; simpl.
  - split; [discriminate|]. intros (before & x & after & H & _).
    destruct before; discriminate.
  - destruct (f a) as [b|] eqn:Ha; simpl.
    + split.
      * intros [= <-]. exists [], a, l. auto.
      * intros (before & x & after & H & Hb & Hx).
        destruct before as [|z before]; simpl in H; inversion H; subst.
        -- congruence.
        -- inversion Hb; subst. congruence.
    + rewrite IH. split.
      * intros (before & x & after & -> & Hb & Hx).
        exists (a :: before), x, after. auto.
      * intros (before & x & after & H & Hb & Hx).
        destruct before as [|z before]; simpl in H; inversion H; subst.
        -- congruence.
        -- inversion Hb; subst. exists before, x, after. auto.
Qed.

End PyFacts.

(** ** The ReAct loop: properties *)

Module ReActFacts.
Import PyFacts ReAct.

Lemma colon_not_word E : is_word E 58 = false.
Proof. reflexivity. Qed.

Lemma forallb_app_iff {A} (f : A -> bool) (a b : list A) :
  forallb f (a ++ b) = true <-> forallb f a = true /\ forallb f b = true.
Proof. rewrite forallb_app, andb_true_iff. reflexivity. Qed.

Lemma action_re_match_iff E a name arg :
  action_re_match E a = Some (name, arg) <->
  name <> [] /\ forallb (is_word E) name = true /\
  forallb not_newline arg = true /\
  (a = py "Action: " ++ name ++ py ": " ++ arg \/
   a = py "Action: " ++ name ++ py ": " ++ arg ++ [10%N]).
Proof.
  unfold action_re_match. split.
  - destruct (strip_prefix (py "Action: ") a) as [r1|] eqn:H1; [|discriminate].
    apply strip_prefix_Some in H1. subst a. cbn [mbind option_bind].
    destruct (span (is_word E) r1) as [nm r2] eqn:H2.
    apply span_spec in H2 as (-> & Hw & _).
    destruct nm as [|c nm]; [discriminate|].
    destruct (strip_prefix (py ": ") r2) as [r3|] eqn:H3; [|discriminate].
    apply strip_prefix_Some in H3. subst r2. cbn [mbind option_bind].
    destruct (span not_newline r3) as [ar tl] eqn:H4.
    apply span_spec in H4 as (-> & Hn & Ht).
    destruct tl as [|x [|y tl]]; intros [= <- <-]; try discriminate.
    + repeat split; try assumption; [discriminate|]. left.
      rewrite app_nil_r. reflexivity.
    + repeat split; try assumption; [discriminate|]. right.
      destruct Ht as [Ht|(c' & b' & [= <- <-] & Hc)]; [discriminate|].
      unfold not_newline in Hc. apply negb_false_iff, eqc_true in Hc.
      subst x. reflexivity.
  - intros (Hne & Hw & Hn & Ha).
    assert (Hgen : exists tl, (tl = [] \/ tl = [10%N]) /\
                     a = py "Action: " ++ name ++ py ": " ++ arg ++ tl).
    { destruct Ha as [->| ->]; [exists [] | exists [10%N]]; split; auto.
      rewrite app_nil_r. reflexivity. }
    destruct Hgen as (tl & Htl & ->).
    rewrite strip_prefix_app. cbn [mbind option_bind].
    rewrite (span_app (is_word E) name (py ": " ++ arg ++ tl) Hw).
    2:{ right. exists 58%N, (32%N :: arg ++ tl). split; [reflexivity|].
        apply colon_not_word. }
    destruct name as [|c name]; [congruence|].
    rewrite strip_prefix_app. cbn [mbind option_bind].
    rewrite (span_app not_newline arg tl Hn).
    2:{ destruct Htl as [->| ->]; [left; reflexivity|].
        right. exists 10%N, []. split; reflexivity. }
    destruct Htl as [->| ->]; reflexivity.
Qed.

Lemma line_argument E text line name arg :
  In line (split_nl text) ->
  (action_re_match E line = Some (name, arg) <->
   line = py "Action: " ++ name ++ py ": " ++ arg /\
   name <> [] /\ forallb (is_word E) name = true).
Proof.
  intros Hin. pose proof (split_nl_lines text) as Hall.
  rewrite Forall_forall in Hall.
  assert (Hline : forallb not_newline line = true).
  { apply Hall. apply list_elem_of_In. exact Hin. }
  rewrite action_re_match_iff. split.
  - intros (Hne & Hw & Hn & [->| ->]); [auto|].
    exfalso. rewrite !forallb_app_iff in Hline.
    destruct Hline as (_ & _ & _ & _ & H). discriminate H.
  - intros (-> & Hne & Hw). rewrite !forallb_app_iff in Hline.
    destruct Hline as (_ & _ & _ & Hn). auto.
Qed.

(** C2, as the code has it. The parse step takes the lines of the
    assistant text in order and selects the first one that [action_re]
    matches, whatever follows it. A line of the text matches exactly when
    it reads [Action: ], a name, a colon and a space, an argument, where
    the name is a non-empty run of word characters; the argument is the
    rest of the line as it stands, white space included. Below code point
    128 the word characters are the letters, the digits and the underscore.
    The line [Action: average_dog_weight: Toy Poodle] gives the name
    [average_dog_weight] and the argument [Toy Poodle]. *)
Theorem first_action_verbatim (E : Env) (text name arg : str) :
  (head (actions E text) = Some (name, arg) <->
   exists before line after,
     split_nl text = before ++ line :: after /\
     Forall (fun l => action_re_match E l = None) before /\
     action_re_match E line = Some (name, arg)) /\
  (forall line, In line (split_nl text) ->
     (action_re_match E line = Some (name, arg) <->
      line = py "Action: " ++ name ++ py ": " ++ arg /\
      name <> [] /\ forallb (is_word E) name = true)) /\
  (forall c, (c < 128)%N -> is_word E c = (ascii_alnum c || eqc c 95)) /\
  head (actions E (py "Action: average_dog_weight: Toy Poodle"))
  = Some (py "average_dog_weight", py "Toy Poodle").
Proof.
  split; [|split; [|split]].
  - unfold actions. apply head_omap.
  - intros line Hin. apply line_argument with (text := text). exact Hin.
  - intros c Hc. unfold is_word. apply N.ltb_lt in Hc. rewrite Hc. reflexivity.
  - apply head_omap. exists [], (py "Action: average_dog_weight: Toy Poodle"), [].
    split; [reflexivity|]. split; [constructor|].
    apply action_re_match_iff. repeat split; try reflexivity; [discriminate|].
    left. reflexivity.
Qed.

(** Two directives in one text: the first one is taken. *)
Example first_of_two_actions :
  head (actions Samples.acting (py "Action: calculate: 4 * 7
Action: average_dog_weight: Collie"))
  = Some (py "calculate", py "4 * 7").
Proof. vm_compute. reflexivity. Qed.

(** A name may hold a letter that is not an ASCII letter: here the name is
    [caf] followed by the code point 233. *)
Example accented_name :
  head (actions (Samples.accented []) (py "Action: caf" ++ [233%N] ++ py ": noir"))
  = Some (py "caf" ++ [233%N], py "noir").
Proof. vm_compute. reflexivity. Qed.

(** C2, as the specification words it, fails: the argument of a directive
    is not trimmed. In the line below the argument keeps the space before
    and the space after the expression. *)
Lemma argument_not_trimmed :
  head (actions Samples.acting (py "Action: calculate:  4 * 7 "))
  = Some (py "calculate", py " 4 * 7 ")
  /\ strip (py " 4 * 7 ") = py "4 * 7"
  /\ py " 4 * 7 " <> strip (py " 4 * 7 ").
Proof. vm_compute. repeat split; discriminate. Qed.

(** *** One pass through the loop *)

Section Turn.

Variable E : Env.
Variables (bot : Agent) (next_prompt : str) (t : trace).

Let msgs := messages bot ++ [Message user next_prompt].
Let result := converse E t (system bot) msgs.
Let heard := t ++ [Converse (system bot) msgs result; Print result].
Let bot' := {| system := system bot;
               messages := msgs ++ [Message assistant result] |}.

Lemma turn_answer :
  actions E result = [] -> turn E bot next_prompt t = (Ok (Return VNone), heard).
Proof.
  intros H. unfold turn, Agent_call, execute, emit, mbind, M_bind, mret, M_ret.
  cbn. fold msgs. fold result. rewrite H. unfold heard.
  rewrite <- app_assoc. reflexivity.
Qed.

Lemma turn_unknown action action_input rest :
  actions E result = (action, action_input) :: rest ->
  known_actions E !! action = None ->
  turn E bot next_prompt t
  = (Raise (Exception (py "Unknown action: " ++ action ++ py ": " ++ action_input)),
     heard).
Proof.
  intros H Hk. unfold turn, Agent_call, execute, emit, mbind, M_bind, mret, M_ret.
  cbn. fold msgs. fold result. rewrite H, Hk. unfold heard, raise.
  rewrite <- app_assoc. reflexivity.
Qed.

Lemma turn_known action action_input rest f :
  actions E result = (action, action_input) :: rest ->
  known_actions E !! action = Some f ->
  turn E bot next_prompt t
  = match f action_input with
    | Ok observation =>
        (Ok (Continue bot' (py "Observation: " ++ observation)),
         heard ++ [Print (py " -- running " ++ action ++ py " " ++ action_input);
                   Call action action_input (Ok observation);
                   Print (py "Observation: " ++ observation)])
    | Raise e =>
        (Raise e,
         heard ++ [Print (py " -- running " ++ action ++ py " " ++ action_input);
                   Call action action_input (Raise e)])
    end.
Proof.
  intros H Hk.
  unfold turn, Agent_call, execute, call, emit, mbind, M_bind, mret, M_ret.
  cbn. fold msgs. fold result. rewrite H, Hk. unfold heard.
  destruct (f action_input) as [observation|e]; rewrite <- !app_assoc; reflexivity.
Qed.

End Turn.

Lemma while_turns_step E fuel max_turns i bot next_prompt t :
  i < max_turns ->
  while_turns E (S fuel) max_turns i bot next_prompt t
  = match turn E bot next_prompt t with
    | (Ok (Continue bot' next_prompt'), t') =>
        while_turns E fuel max_turns (i + 1) bot' next_prompt' t'
    | (Ok (Return v), t') => (Ok (Some v), t')
    | (Raise e, t') => (Raise e, t')
    end.
Proof.
  intros Hi. apply Z.ltb_lt in Hi. cbn [while_turns]. rewrite Hi.
  unfold mbind, M_bind. destruct (turn E bot next_prompt t) as [[[b p|v]|e] t'];
    reflexivity.
Qed.

(** C4, as the code has it. When the assistant text of a turn has no line
    that matches the action pattern, the loop ends on that turn without an
    exception: after the call of the model that produced the text and the
    printing of the text nothing more happens, and [query] hands [None] to
    its caller. *)
Theorem no_action_ends_loop (E : Env) (fuel : nat) (max_turns i : Z)
    (bot : Agent) (next_prompt : str) (t : trace) :
  i < max_turns ->
  actions E (converse E t (system bot) (messages bot ++ [Message user next_prompt])) = [] ->
  while_turns E (S fuel) max_turns i bot next_prompt t
  = (Ok (Some VNone),
     t ++ [Converse (system bot) (messages bot ++ [Message user next_prompt])
             (converse E t (system bot) (messages bot ++ [Message user next_prompt]));
           Print (converse E t (system bot) (messages bot ++ [Message user next_prompt]))]).
Proof.
  intros Hi Hno. rewrite while_turns_step by exact Hi.
  rewrite turn_answer by exact Hno. reflexivity.
Qed.

Lemma no_action_ends_loop_witness :
  query Samples.answering Samples.question 5 []
  = (Ok (Some VNone),
     [Converse [prompt] [Message user Samples.question]
        (py "Answer: A bulldog weights 51 lbs");
      Print (py "Answer: A bulldog weights 51 lbs")]).
Proof.
  exact (no_action_ends_loop Samples.answering (Z.to_nat 5) 5 0
           (Agent_init prompt) Samples.question [] eq_refl eq_refl).
Defined.

(** C4, as the specification words it, fails: the assistant text is not
    what [query] returns. On a reply without a directive the call returns
    [None]. *)
Lemma answer_not_returned :
  actions Samples.answering (py "Answer: A bulldog weights 51 lbs") = []
  /\ fst (query Samples.answering Samples.question 5 []) = Ok (Some VNone)
  /\ fst (query Samples.answering Samples.question 5 [])
     <> Ok (Some (VStr (py "Answer: A bulldog weights 51 lbs"))).
Proof. vm_compute. repeat split; discriminate. Qed.

(** C6. When the first matching line of a turn names an action that is not
    in [known_actions], the loop raises the unknown-action exception right
    after the text was printed: no action is called, the model is not
    asked again, the run is over. When the name is registered, the callable
    found under it is applied to the parsed argument; its result is the
    observation that is printed and sent to the model on the next pass,
    and an exception of the callable ends the run. *)
Theorem dispatch_first_action (E : Env) (fuel : nat) (max_turns i : Z)
    (bot : Agent) (next_prompt : str) (t : trace)
    (action action_input : str) (rest : list (str * str)) :
  let msgs := messages bot ++ [Message user next_prompt] in
  let result := converse E t (system bot) msgs in
  let heard := t ++ [Converse (system bot) msgs result; Print result] in
  let running := Print (py " -- running " ++ action ++ py " " ++ action_input) in
  i < max_turns ->
  actions E result = (action, action_input) :: rest ->
  match known_actions E !! action with
  | None =>
      while_turns E (S fuel) max_turns i bot next_prompt t
      = (Raise (Exception (py "Unknown action: " ++ action ++ py ": " ++ action_input)),
         heard)
  | Some f =>
      match f action_input with
      | Ok observation =>
          while_turns E (S fuel) max_turns i bot next_prompt t
          = while_turns E fuel max_turns (i + 1)
              {| system := system bot;
                 messages := msgs ++ [Message assistant result] |}
              (py "Observation: " ++ observation)
              (heard ++ [running; Call action action_input (Ok observation);
                         Print (py "Observation: " ++ observation)])
      | Raise e =>
          while_turns E (S fuel) max_turns i bot next_prompt t
          = (Raise e, heard ++ [running; Call action action_input (Raise e)])
      end
  end.
Proof.
  intros msgs result heard running Hi Hact.
  rewrite while_turns_step by exact Hi.
  destruct (known_actions E !! action) as [f|] eqn:Hk.
  - rewrite (turn_known E bot next_prompt t action action_input rest f Hact Hk).
    destruct (f action_input); reflexivity.
  - rewrite (turn_unknown E bot next_prompt t action action_input rest Hact Hk).
    reflexivity.
Qed.

Lemma dispatch_first_action_witness :
  query Samples.flying Samples.question 5 []
  = (Raise (Exception (py "Unknown action: fly: to the moon")),
     [Converse [prompt] [Message user Samples.question] (py "Action: fly: to the moon");
      Print (py "Action: fly: to the moon")]).
Proof.
  exact (dispatch_first_action Samples.flying (Z.to_nat 5) 5 0
           (Agent_init prompt) Samples.question [] (py "fly") (py "to the moon") []
           eq_refl eq_refl).
Defined.

(** A registered action run by the loop: one turn of [Samples.acting]. *)
Example dog_weight_turn :
  query Samples.acting Samples.question 1 []
  = (Ok (Some VNone),
     [Converse [prompt] [Message user Samples.question]
        (converse Samples.acting [] [] []);
      Print (converse Samples.acting [] [] []);
      Print (py " -- running average_dog_weight Toy Poodle");
      Call (py "average_dog_weight") (py "Toy Poodle")
        (Ok (py "a toy poodles average weight is 7 lbs"));
      Print (py "Observation: a toy poodles average weight is 7 lbs")]).
Proof. vm_compute. reflexivity. Qed.

(** *** Counting the calls of the model *)












(** *** Further properties of the loop *)

Lemma turn_cases E bot next_prompt t :
  let msgs := messages bot ++ [Message user next_prompt] in
  let result := converse E t (system bot) msgs in
  let heard := t ++ [Converse (system bot) msgs result; Print result] in
  turn E bot next_prompt t = (Ok (Return VNone), heard) \/
  (exists action action_input,
     known_actions E !! action = None /\
     turn E bot next_prompt t
     = (Raise (Exception (py "Unknown action: " ++ action ++ py ": " ++ action_input)),
        heard)) \/
  (exists action action_input f,
     known_actions E !! action = Some f /\
     ((exists observation,
         f action_input = Ok observation /\
         turn E bot next_prompt t
         = (Ok (Continue {| system := system bot;
                            messages := msgs ++ [Message assistant result] |}
                  (py "Observation: " ++ observation)),
            heard ++ [Print (py " -- running " ++ action ++ py " " ++ action_input);
                      Call action action_input (f action_input);
                      Print (py "Observation: " ++ observation)])) \/
      (exists e,
         f action_input = Raise e /\
         turn E bot next_prompt t
         = (Raise e,
            heard ++ [Print (py " -- running " ++ action ++ py " " ++ action_input);
                      Call action action_input (f action_input)])))).
Proof.
  intros msgs result heard.
  destruct (actions E result) as [|[action action_input] rest] eqn:Hact.
  - left. apply turn_answer. exact Hact.
  - destruct (known_actions E !! action) as [f|] eqn:Hk.
    + right. right. exists action, action_input, f. split; [exact Hk|].
      rewrite (turn_known E bot next_prompt t action action_input rest f Hact Hk).
      destruct (f action_input) as [observation|e]; [left|right]; eauto.
    + right. left. exists action, action_input. split; [exact Hk|].
      apply (turn_unknown E bot next_prompt t action action_input rest Hact Hk).
Qed.

(** A property of the events that every pass through the body keeps is
    kept by the loop. [I] is what the passes need of the agent and of the
    next prompt. *)
Lemma while_turns_keeps E (I : Agent -> str -> Prop) (G : event -> Prop) :
  (forall bot next_prompt t, I bot next_prompt -> Forall G t ->
     Forall G (snd (turn E bot next_prompt t)) /\
     forall bot' next_prompt' t',
       turn E bot next_prompt t = (Ok (Continue bot' next_prompt'), t') ->
       I bot' next_prompt') ->
  forall fuel max_turns i bot next_prompt t,
    I bot next_prompt -> Forall G t ->
    Forall G (snd (while_turns E fuel max_turns i bot next_prompt t)).
Proof.
  intros Hturn. induction fuel as [|fuel IH]; intros max_turns i bot next_prompt t HI HG.
  - exact HG.
  - destruct (Z.ltb_spec i max_turns) as [Hi|Hi].
    + rewrite while_turns_step by exact Hi.
      destruct (Hturn bot next_prompt t HI HG) as [HG' HI'].
      destruct (turn E bot next_prompt t) as [[[b p|v]|e] t']; cbn [snd] in *;
        try exact HG'.
      apply IH; [apply (HI' b p t' eq_refl)|exact HG'].
    + cbn [while_turns]. apply Z.ltb_ge in Hi. rewrite Hi. exact HG.
Qed.

Lemma alternates_app r a b :
  alternates r (a ++ b)
  = alternates r a && alternates (if Nat.even (length a) then r else other r) b.
Proof.
  revert r. induction a as [|m a IH]; intros r; [reflexivity|].
  cbn [app alternates length]. rewrite IH, <- andb_assoc. f_equal. f_equal.
  rewrite Nat.even_succ, <- Nat.negb_even.
  destruct (Nat.even (length a)), r; reflexivity.
Qed.

(** X1. In every run of [query], every call of the model carries the
    system prompt of the notebook and a session whose roles alternate,
    that starts with the question as a user message, has an odd number of
    messages and ends with a user message. *)
Theorem session_alternates (E : Env) (question : str) (max_turns : Z) :
  Forall (well_formed_call question) (snd (query E question max_turns [])).
Proof.
  unfold query.
  apply (while_turns_keeps E
           (fun bot next_prompt =>
              system bot = [prompt] /\ alternates user (messages bot) = true /\
              Nat.even (length (messages bot)) = true /\
              head (messages bot ++ [Message user next_prompt])
              = Some (Message user question))).
  - intros bot next_prompt t (Hsys & Halt & Heven & Hhead) HG.
    assert (Hconv : well_formed_call question
                      (Converse (system bot) (messages bot ++ [Message user next_prompt])
                         (converse E t (system bot)
                            (messages bot ++ [Message user next_prompt])))).
    { cbn [well_formed_call]. rewrite alternates_app, Halt, Heven, length_app.
      rewrite Nat.add_comm. cbn [length Nat.add]. rewrite Nat.odd_succ, Heven.
      split; [exact Hsys|]. split; [reflexivity|]. split; [reflexivity|].
      split; [exact Hhead|]. eauto. }
    pose proof (turn_cases E bot next_prompt t) as Hcases. cbn zeta in Hcases.
    assert (Hall : forall more, Forall (well_formed_call question) more ->
              Forall (well_formed_call question)
                ((t ++ [Converse (system bot) (messages bot ++ [Message user next_prompt])
                          (converse E t (system bot)
                             (messages bot ++ [Message user next_prompt]));
                        Print (converse E t (system bot)
                                 (messages bot ++ [Message user next_prompt]))])
                 ++ more)).
    { intros more Hmore. apply Forall_app. split; [|exact Hmore].
      apply Forall_app. split; [exact HG|].
      constructor; [exact Hconv|]. constructor; [exact I|constructor]. }
    assert (Hcalls : forall l, Forall (well_formed_call question)
                                 (List.filter (fun ev => negb (is_converse ev)) l)).
    { intros l. apply Forall_forall. intros ev Hev.
      apply list_elem_of_In, List.filter_In in Hev as [_ Hev].
      destruct ev; try exact I. discriminate. }
    destruct Hcases as [H|[(a & ai & _ & H)|(a & ai & f & _ & [(o & _ & H)|(e & _ & H)])]];
      rewrite H; cbn [snd]; split;
      try (intros b p t' [=]).
    + rewrite <- (app_nil_r (t ++ _)). apply Hall. constructor.
    + rewrite <- (app_nil_r (t ++ _)). apply Hall. constructor.
    + apply Hall. exact (Hcalls [Print _; Call _ _ _; Print _]).
    + subst. cbn [system messages]. split; [exact Hsys|].
      rewrite !alternates_app, Halt, Heven, !length_app. cbn [length alternates].
      rewrite Nat.add_comm. cbn [Nat.add]. rewrite Nat.even_succ, <- Nat.negb_even, Heven.
      cbn. rewrite Nat.add_comm. cbn [Nat.add Nat.even]. split; [reflexivity|].
      split; [exact Heven|].
      rewrite <- !app_assoc. rewrite <- Hhead.
      destruct (messages bot); reflexivity.
    + apply Hall. exact (Hcalls [Print _; Call _ _ _]).
  - repeat split; reflexivity.
  - constructor.
Qed.










Lemma split_nl_app (a b : str) :
  split_nl (a ++ 10%N :: b) = split_nl a ++ split_nl b.
Proof.
  induction a as [|c a IH]; [reflexivity|].
  cbn [app split_nl]. rewrite IH.
  destruct (eqc c 10); [reflexivity|].
  pose proof (split_nl_nonempty a) as Hne.
  destruct (split_nl a) as [|l ls]; [congruence|reflexivity].
Qed.

(** X4. The directives of two texts put one after the other with a line
    feed between them are the directives of the first followed by the
    directives of the second: lines are matched one by one, and a text
    with a directive in it keeps it as the first when more lines follow. *)
Theorem actions_of_lines (E : Env) (a b : str) :
  actions E (a ++ 10%N :: b) = actions E a ++ actions E b /\
  (actions E a <> [] ->
   head (actions E (a ++ 10%N :: b)) = head (actions E a)) /\
  (actions E a = [] ->
   head (actions E (a ++ 10%N :: b)) = head (actions E b)).
Proof.
  assert (Heq : actions E (a ++ 10%N :: b) = actions E a ++ actions E b).
  { unfold actions. rewrite split_nl_app. apply omap_app. }
  split; [exact Heq|]. rewrite Heq. split.
  - intros Hne. destruct (actions E a); [congruence|reflexivity].
  - intros ->. reflexivity.
Qed.

Lemma actions_of_lines_witness :
  head (actions Samples.acting
          (py "Action: calculate: 4 * 7" ++ 10%N :: py "Action: fly: to the moon"))
  = head (actions Samples.acting (py "Action: calculate: 4 * 7")).
Proof.
  apply (proj1 (proj2 (actions_of_lines Samples.acting
                         (py "Action: calculate: 4 * 7")
                         (py "Action: fly: to the moon")))).
  vm_compute. discriminate.
Defined.

(** *** The dog weights *)

Lemma is_prefix_iff (p s : str) :
  is_prefix p s = true <-> exists r, s = p ++ r.
Proof.
  revert s. induction p as [|a p IH]; intros s.
  - split; [intros _; exists s; reflexivity|reflexivity].
  - destruct s as [|b s]; cbn [is_prefix].
    + split; [discriminate|intros [r H]; discriminate].
    + rewrite andb_true_iff, eqc_true, IH. split.
      * intros [-> [r ->]]. exists r. reflexivity.
      * intros [r H]. injection H as -> ->. eauto.
Qed.

Lemma contains_iff (s sub : str) : contains s sub = true <-> part_of sub s.
Proof.
  unfold part_of. induction s as [|c s IH]; cbn [contains].
  - rewrite orb_false_r, is_prefix_iff. split.
    + intros [r H]. exists [], r. exact H.
    + intros (before & after & H). destruct before; [|discriminate].
      exists after. exact H.
  - rewrite orb_true_iff, is_prefix_iff, IH. split.
    + intros [[r H]|(before & after & ->)].
      * exists [], r. exact H.
      * exists (c :: before), after. reflexivity.
    + intros (before & after & H). destruct before as [|x before].
      * left. exists after. exact H.
      * right. injection H as -> ->. eauto.
Qed.

Lemma part_of_length (name breed : str) :
  part_of name breed -> (length name <= length breed)%nat.
Proof. intros (before & after & ->). rewrite !length_app. lia. Qed.

Lemma contains_false (s sub : str) : ~ part_of sub s -> contains s sub = false.
Proof.
  intros H. destruct (contains s sub) eqn:Hc; [|reflexivity].
  apply contains_iff in Hc. contradiction.
Qed.

(** X5. [average_dog_weight] tests whether the name occurs inside the
    name of a breed, the breeds taken in the order Scottish Terrier,
    Border Collie, Toy Poodle: the first breed whose name holds the given
    name as a run of consecutive characters decides the answer, and a name
    that occurs in none of the three gets the answer for an average dog.
    So the empty name gets the answer for the Scottish Terrier, and every
    name of more than sixteen characters the answer for an average dog. *)
Theorem average_dog_weight_by_part (name : str) :
  (part_of name (py "Scottish Terrier") ->
   average_dog_weight name = Ok (py "Scottish Terriers average 20 lbs")) /\
  (~ part_of name (py "Scottish Terrier") -> part_of name (py "Border Collie") ->
   average_dog_weight name = Ok (py "a Border Collies average weight is 37 lbs")) /\
  (~ part_of name (py "Scottish Terrier") -> ~ part_of name (py "Border Collie") ->
   part_of name (py "Toy Poodle") ->
   average_dog_weight name = Ok (py "a toy poodles average weight is 7 lbs")) /\
  (~ part_of name (py "Scottish Terrier") -> ~ part_of name (py "Border Collie") ->
   ~ part_of name (py "Toy Poodle") ->
   average_dog_weight name = Ok (py "An average dog weights 50 lbs")) /\
  ((16 < length name)%nat ->
   average_dog_weight name = Ok (py "An average dog weights 50 lbs")) /\
  average_dog_weight [] = Ok (py "Scottish Terriers average 20 lbs").
Proof.
  unfold average_dog_weight. repeat apply conj.
  - intros H. apply contains_iff in H. rewrite H. reflexivity.
  - intros H1 H2. apply contains_false in H1. apply contains_iff in H2.
    rewrite H1, H2. reflexivity.
  - intros H1 H2 H3. apply contains_false in H1, H2. apply contains_iff in H3.
    rewrite H1, H2, H3. reflexivity.
  - intros H1 H2 H3. apply contains_false in H1, H2, H3.
    rewrite H1, H2, H3. reflexivity.
  - intros Hlen.
    rewrite !contains_false; [reflexivity| | |];
      intros H; apply part_of_length in H; unfold py in H; cbn in H; lia.
  - reflexivity.
Qed.

Lemma average_dog_weight_by_part_witness :
  average_dog_weight (py "Terrier") = Ok (py "Scottish Terriers average 20 lbs")
  /\ average_dog_weight (py "Toy Poodle puppies")
     = Ok (py "An average dog weights 50 lbs").
Proof.
  split.
  - apply (proj1 (average_dog_weight_by_part (py "Terrier"))).
    exists (py "Scottish "), []. reflexivity.
  - apply (proj1 (proj2 (proj2 (proj2 (proj2
             (average_dog_weight_by_part (py "Toy Poodle puppies"))))))).
    vm_compute. lia.
Defined.

End ReActFacts.

(** ** The essay graph: properties *)

Module EssayFacts.
Import PyFacts Essay.

(** *** Locating the payload *)

Lemma is_prefix_single c x s : is_prefix [c] (x :: s) = eqc c x.
Proof. cbn. apply andb_true_r. Qed.

Lemma find_from_spec c : forall s i,
  (~ In c s /\ find_from s [c] i = -1) \/
  (exists pre rest, s = pre ++ c :: rest /\ ~ In c pre /\
                    find_from s [c] i = i + Z.of_nat (length pre)).
Proof.
  induction s as [|x s IH]; intros i.
  - left. split; [intros []|reflexivity].
  - cbn [find_from]. rewrite is_prefix_single.
    destruct (eqc c x) eqn:Hcx.
    + apply eqc_true in Hcx. subst x. right. exists [], s.
      repeat split; [intros []|]. cbn. lia.
    + assert (c <> x) by (intros ->; rewrite (proj2 (eqc_true x x) eq_refl) in Hcx;
                          discriminate).
      destruct (IH (i + 1)) as [[Hn Hf]|(pre & rest & -> & Hn & Hf)].
      * left. split; [|exact Hf]. intros [Hx|Hx]; [congruence|tauto].
      * right. exists (x :: pre), rest. repeat split.
        -- intros [Hx|Hx]; [congruence|tauto].
        -- rewrite Hf. cbn [length]. lia.
Qed.

Lemma rfind_from_spec c : forall s i, 0 <= i ->
  (~ In c s /\ rfind_from s [c] i = -1) \/
  (exists pre post, s = pre ++ c :: post /\ ~ In c post /\
                    rfind_from s [c] i = i + Z.of_nat (length pre)).
Proof.
  induction s as [|x s IH]; intros i Hi.
  - left. split; [intros []|reflexivity].
  - cbn [rfind_from]. rewrite is_prefix_single.
    destruct (IH (i + 1)) as [[Hn Hf]|(pre & post & -> & Hn & Hf)]; [lia| |].
    + rewrite Hf. cbn [Z.leb Z.compare].
      destruct (eqc c x) eqn:Hcx.
      * apply eqc_true in Hcx. subst x. right. exists [], s.
        repeat split; [exact Hn|]. cbn. lia.
      * left. split; [|reflexivity].
        intros [Hx|Hx]; [|tauto]. subst x.
        rewrite (proj2 (eqc_true c c) eq_refl) in Hcx. discriminate.
    + rewrite Hf. right. exists (x :: pre), post.
      repeat split; [exact Hn|].
      destruct (Z.leb_spec 0 (i + 1 + Z.of_nat (length pre))); [|lia].
      cbn [length]. lia.
Qed.

Lemma find_unique {A} (c : A) (pre rest pre' rest' : list A) :
  ~ In c pre -> ~ In c pre' -> pre ++ c :: rest = pre' ++ c :: rest' ->
  pre = pre'.
Proof.
  revert pre'. induction pre as [|x pre IH]; intros [|y pre'] H1 H2 Heq;
    cbn in *; inversion Heq; subst; try tauto.
  f_equal. apply IH; tauto.
Qed.

Lemma rfind_unique {A} (c : A) (pre post pre' post' : list A) :
  ~ In c post -> ~ In c post' -> pre ++ c :: post = pre' ++ c :: post' ->
  pre = pre'.
Proof.
  revert pre'. induction pre as [|x pre IH]; intros [|y pre'] H1 H2 Heq;
    cbn in *; inversion Heq; subst.
  - reflexivity.
  - exfalso. apply H1. apply in_or_app. right. left. reflexivity.
  - exfalso. apply H2. apply in_or_app. right. left. reflexivity.
  - f_equal. apply IH; tauto.
Qed.

Lemma slice_middle (a m b : str) :
  slice (a ++ m ++ b) (Z.of_nat (length a)) (Z.of_nat (length a + length m)) = m.
Proof.
  unfold slice, clip. rewrite !length_app.
  destruct (Z.ltb_spec (Z.of_nat (length a)) 0); [lia|].
  destruct (Z.ltb_spec (Z.of_nat (length a + length m)) 0); [lia|].
  rewrite !Z.min_l by lia.
  replace (Z.to_nat (Z.of_nat (length a + length m) - Z.of_nat (length a)))
    with (length m) by lia.
  rewrite Nat2Z.id, drop_app_length, take_app_length. reflexivity.
Qed.

Lemma slice_empty (s : str) (a b : Z) :
  clip (Z.of_nat (length s)) b <= clip (Z.of_nat (length s)) a -> slice s a b = [].
Proof.
  intros H. unfold slice.
  replace (Z.to_nat _) with 0%nat by lia. reflexivity.
Qed.

Lemma clip_nonneg len i : 0 <= len -> 0 <= clip len i.
Proof. unfold clip. destruct (Z.ltb_spec i 0); lia. Qed.

Lemma json_str_located (pre mid post : str) :
  ~ In 123%N pre -> ~ In 125%N post ->
  json_str (pre ++ py "{" ++ mid ++ py "}" ++ post) = py "{" ++ mid ++ py "}".
Proof.
  intros Hpre Hpost. unfold json_str, find, rfind.
  change (py "{") with [123%N]. change (py "}") with [125%N].
  set (text := pre ++ [123%N] ++ mid ++ [125%N] ++ post).
  destruct (find_from_spec 123%N text 0) as [[Hn _]|(p & r & Heq & Hp & ->)].
  { exfalso. apply Hn. unfold text. apply in_or_app. right. left. reflexivity. }
  assert (p = pre) as ->.
  { symmetry. apply (find_unique 123%N pre (mid ++ [125%N] ++ post) p r Hpre Hp).
    rewrite <- Heq. reflexivity. }
  destruct (rfind_from_spec 125%N text 0) as [[Hn _]|(p & q & Heq' & Hq & ->)];
    [lia| |].
  { exfalso. apply Hn. unfold text. rewrite !in_app_iff. cbn. tauto. }
  assert (p = pre ++ [123%N] ++ mid) as ->.
  { symmetry. apply (rfind_unique 125%N _ post p q Hpost Hq).
    rewrite <- Heq'. unfold text. rewrite <- !app_assoc. reflexivity. }
  replace text with (pre ++ ([123%N] ++ mid ++ [125%N]) ++ post)
    by (unfold text; rewrite <- !app_assoc; reflexivity).
  replace (0 + Z.of_nat (length (pre ++ [123%N] ++ mid)) + 1)
    with (Z.of_nat (length pre + length ([123%N] ++ mid ++ [125%N])))
    by (rewrite !length_app; cbn [length]; lia).
  rewrite Z.add_0_l. apply slice_middle.
Qed.

Lemma json_str_absent (text : str) :
  ~ In 123%N text \/ ~ In 125%N text ->
  json_str text = [] \/ json_str text = py "}".
Proof.
  intros Habs. unfold json_str, find, rfind.
  change (py "{") with [123%N]. change (py "}") with [125%N].
  pose proof (Zle_0_nat (length text)) as Hlen.
  destruct (rfind_from_spec 125%N text 0) as [[_ ->]|(p & q & -> & Hq & ->)];
    [lia| |].
  - left. apply slice_empty.
    pose proof (clip_nonneg (Z.of_nat (length text)) (find_from text [123%N] 0) Hlen).
    change (-1 + 1) with 0. unfold clip at 1. change (0 <? 0) with false.
    cbn iota. lia.
  - destruct Habs as [Habs|Habs].
    2:{ exfalso. apply Habs. apply in_or_app. right. left. reflexivity. }
    destruct (find_from_spec 123%N (p ++ 125%N :: q) 0)
      as [[_ ->]|(p' & r & Heq & _ & _)].
    2:{ exfalso. apply Habs. rewrite Heq. apply in_or_app. right. left. reflexivity. }
    destruct q as [|y q].
    + right. unfold slice, clip. rewrite length_app. cbn [length].
      destruct (Z.ltb_spec (-1) 0); [|lia].
      destruct (Z.ltb_spec (0 + Z.of_nat (length p) + 1) 0); [lia|].
      rewrite Z.min_l, Z.max_r by lia.
      replace (Z.to_nat (-1 + Z.of_nat (length p + 1))) with (length p) by lia.
      rewrite drop_app_length.
      replace (Z.to_nat _) with 1%nat by lia. reflexivity.
    + left. apply slice_empty. unfold clip. rewrite length_app. cbn [length].
      destruct (Z.ltb_spec (-1) 0); [|lia].
      destruct (Z.ltb_spec (0 + Z.of_nat (length p) + 1) 0); lia.
Qed.

(** *** The research nodes *)

Lemma collect_raises E state text t e :
  parse_queries E text = Raise e -> collect E state text t = (Raise e, t).
Proof.
  intros H. unfold collect, lift, mbind, M_bind. rewrite H. reflexivity.
Qed.

Lemma research_plan_node_eq E state t tk :
  task state = Some tk ->
  research_plan_node E state t
  = collect E state (model_invoke E t (research_plan_input E tk))
      (t ++ [Invoke (research_plan_input E tk)
               (model_invoke E t (research_plan_input E tk))]).
Proof. intros H. unfold research_plan_node. rewrite H. reflexivity. Qed.

Lemma research_critique_node_eq E state t cr :
  critique state = Some cr ->
  research_critique_node E state t
  = collect E state (model_invoke E t (research_critique_input E cr))
      (t ++ [Invoke (research_critique_input E cr)
               (model_invoke E t (research_critique_input E cr))]).
Proof. intros H. unfold research_critique_node. rewrite H. reflexivity. Qed.

Lemma run_from_raises E n limit state t e t' :
  node_fn E n state (t ++ [Enter n]) = (Raise e, t') ->
  run_from E (S limit) n state t = (Raise e, t').
Proof.
  intros H. cbn [run_from]. unfold mbind, M_bind, emit. rewrite H. reflexivity.
Qed.

(** C7. A research node hands to the JSON decoder the part of the model's
    text that runs from the first opening brace to the last closing brace,
    both included. When a brace is missing that part is empty or is a lone
    closing brace. Whenever the decoder or the [Queries] class raises on
    it, which they do on a missing payload as soon as the decoder rejects
    these two texts, the node ends with that exception after its single
    call of the model, no search is made, and the run of the graph ends
    with the same exception. *)
Theorem payload_between_braces (E : Env) (state : AgentState) (t : trace) :
  (forall pre mid post : str, ~ In 123%N pre -> ~ In 125%N post ->
     json_str (pre ++ py "{" ++ mid ++ py "}" ++ post) = py "{" ++ mid ++ py "}") /\
  (forall text : str, ~ In 123%N text \/ ~ In 125%N text ->
     json_str text = [] \/ json_str text = py "}") /\
  (forall text : str,
     parse_queries E text
     = match json_loads E (json_str text) with
       | Ok queries_dict => Queries E queries_dict
       | Raise e => Raise e
       end) /\
  (forall e0 e1 (text : str),
     json_loads E [] = Raise e0 -> json_loads E (py "}") = Raise e1 ->
     ~ In 123%N text \/ ~ In 125%N text ->
     parse_queries E text = Raise e0 \/ parse_queries E text = Raise e1) /\
  (forall tk e, task state = Some tk ->
     parse_queries E (model_invoke E t (research_plan_input E tk)) = Raise e ->
     research_plan_node E state t
     = (Raise e, t ++ [Invoke (research_plan_input E tk)
                         (model_invoke E t (research_plan_input E tk))])) /\
  (forall cr e, critique state = Some cr ->
     parse_queries E (model_invoke E t (research_critique_input E cr)) = Raise e ->
     research_critique_node E state t
     = (Raise e, t ++ [Invoke (research_critique_input E cr)
                         (model_invoke E t (research_critique_input E cr))])) /\
  (forall n limit e t', node_fn E n state (t ++ [Enter n]) = (Raise e, t') ->
     run_from E (S limit) n state t = (Raise e, t')).
Proof.
  repeat apply conj.
  - apply json_str_located.
  - apply json_str_absent.
  - reflexivity.
  - intros e0 e1 text H0 H1 Habs. unfold parse_queries.
    destruct (json_str_absent text Habs) as [-> | ->]; [left|right].
    + rewrite H0. reflexivity.
    + rewrite H1. reflexivity.
  - intros tk e Htk Hparse. rewrite (research_plan_node_eq E state t tk Htk).
    apply collect_raises, Hparse.
  - intros cr e Hcr Hparse. rewrite (research_critique_node_eq E state t cr Hcr).
    apply collect_raises, Hparse.
  - intros n limit e t'. apply run_from_raises.
Qed.

Lemma payload_between_braces_witness :
  research_plan_node Samples.rambling (Samples.essay_input 2) []
  = (Raise (PyError "JSONDecodeError"),
     [Invoke (research_plan_input Samples.rambling
                (py "what is the difference between langchain and langsmith"))
        (py "I could not think of any query.")]).
Proof.
  exact (proj1 (proj2 (proj2 (proj2 (proj2
           (payload_between_braces Samples.rambling (Samples.essay_input 2) [])))))
           (py "what is the difference between langchain and langsmith")
           (PyError "JSONDecodeError") eq_refl eq_refl).
Defined.

(** *** Retrieval *)

Lemma searches_app (t u : trace) : searches (t ++ u) = searches t ++ searches u.
Proof. unfold searches. apply omap_app. Qed.

Lemma snippets_app (t u : trace) : snippets (t ++ u) = snippets t ++ snippets u.
Proof. unfold snippets. rewrite omap_app. apply join_app. Qed.

Lemma visited_app (t u : trace) : visited (t ++ u) = visited t ++ visited u.
Proof. unfold visited. apply omap_app. Qed.

Lemma one_search_each_facts evs queries :
  one_search_each evs queries ->
  searches evs = queries /\ visited evs = [] /\ length evs = length queries.
Proof.
  induction 1 as [|e q evs queries [r ->] _ (IH1 & IH2 & IH3)]; [auto|].
  cbn. rewrite IH3. fold (searches evs). fold (visited evs).
  rewrite IH1, IH2. auto.
Qed.

Lemma search_all_spec E : forall queries c t,
  exists evs,
    search_all E queries c t = (Ok (c ++ snippets evs), t ++ evs) /\
    one_search_each evs queries.
Proof.
  induction queries as [|q queries IH]; intros c t.
  - exists []. cbn. rewrite !app_nil_r. split; [reflexivity|constructor].
  - cbn [search_all]. unfold mbind, M_bind, search.
    set (r := tavily_search E t q 2).
    destruct (IH (c ++ r) (t ++ [Search q 2 r])) as (evs & Heq & Hall).
    exists (Search q 2 r :: evs). split.
    + rewrite Heq. change (Search q 2 r :: evs) with ([Search q 2 r] ++ evs).
      rewrite snippets_app, !app_assoc. cbn. rewrite app_nil_r. reflexivity.
    + constructor; [exists r; reflexivity|exact Hall].
Qed.

Lemma collect_ok E state text t queries c :
  parse_queries E text = Ok queries ->
  content state = Some c ->
  exists evs,
    collect E state text t
    = (Ok (content_update (or_empty c ++ snippets evs)), t ++ evs) /\
    one_search_each evs queries.
Proof.
  intros Hparse Hc. unfold collect, lift, mbind, M_bind, getitem.
  rewrite Hparse, Hc. cbn [mret M_ret].
  destruct (search_all_spec E queries (or_empty c) t) as (evs & Heq & Hall).
  exists evs. rewrite Heq. split; [reflexivity|exact Hall].
Qed.




(** *** The conditional edge *)

(** C8. The edge out of [generate] is [should_continue]; on a state that
    holds both numbers it leads to the end exactly when [revision_number]
    is strictly greater than [max_revisions], and to [reflect] otherwise,
    in particular when the two are equal. *)
Theorem should_continue_strict (state : AgentState) (r m : Z) :
  revision_number state = Some r ->
  max_revisions state = Some m ->
  edge generate state = should_continue state /\
  (should_continue state = Ok END <-> r > m) /\
  (should_continue state = Ok (To reflect) <-> r <= m) /\
  (r = m -> should_continue state = Ok (To reflect)).
Proof.
  intros Hr Hm. split; [reflexivity|].
  unfold should_continue. rewrite Hr, Hm.
  destruct (Z.ltb_spec m r) as [H|H]; repeat split; intros; try lia;
    try reflexivity; try discriminate.
Qed.

Lemma should_continue_strict_witness :
  should_continue (Samples.essay_input 1) = Ok (To reflect).
Proof.
  exact (proj2 (proj2 (proj2
           (should_continue_strict (Samples.essay_input 1) 1 1 eq_refl eq_refl)))
           eq_refl).
Defined.

(** *** The generate node *)

Lemma generation_node_eq E state t c tk pl :
  content state = Some c -> task state = Some tk -> plan state = Some pl ->
  generation_node E state t
  = (Ok {| task := None; plan := None;
           draft := Some (model_invoke E t (generation_input (or_empty c) tk pl));
           critique := None; content := None;
           revision_number := Some (default 1 (revision_number state) + 1);
           max_revisions := None |},
     t ++ [Invoke (generation_input (or_empty c) tk pl)
             (model_invoke E t (generation_input (or_empty c) tk pl))]).
Proof.
  intros Hc Htk Hpl. unfold generation_node. rewrite Hc, Htk, Hpl. reflexivity.
Qed.

(** C10. On a state that holds what the prompt is made of ([content],
    [task] and [plan]), the generate node returns an update after one call
    of the model. When the state has no [revision_number] the update holds
    2, the missing number being read as 1; when the state has one, the
    update holds that number plus 1. *)
Theorem generation_increments (E : Env) (state : AgentState) (t : trace)
    (c : option (list str)) (tk pl : str) :
  content state = Some c -> task state = Some tk -> plan state = Some pl ->
  exists update,
    generation_node E state t
    = (Ok update,
       t ++ [Invoke (generation_input (or_empty c) tk pl)
               (model_invoke E t (generation_input (or_empty c) tk pl))]) /\
    draft update = Some (model_invoke E t (generation_input (or_empty c) tk pl)) /\
    (revision_number state = None -> revision_number update = Some 2) /\
    (forall r, revision_number state = Some r ->
               revision_number update = Some (r + 1)).
Proof.
  intros Hc Htk Hpl. eexists. split.
  - apply generation_node_eq; eassumption.
  - cbn. split; [reflexivity|]. split.
    + intros ->. reflexivity.
    + intros r ->. reflexivity.
Qed.

Lemma generation_increments_witness :
  exists update,
    fst (generation_node (Samples.researching Samples.three_queries)
           Samples.unnumbered []) = Ok update /\
    revision_number update = Some 2.
Proof.
  destruct (generation_increments (Samples.researching Samples.three_queries)
              Samples.unnumbered [] (Some [py "LangSmith is a platform."])
              (py "what is the difference between langchain and langsmith")
              (py "1. Introduction 2. Comparison 3. Conclusion")
              eq_refl eq_refl eq_refl) as (update & Heq & _ & Hnone & _).
  exists update. split; [rewrite Heq; reflexivity|]. apply Hnone. reflexivity.
Defined.

(** *** Runs of the graph *)

Ltac unfold_M :=
  unfold getitem, invoke, raise, lift, emit, mbind, M_bind, mret, M_ret in *.

Lemma run_from_step E n limit state t u t' :
  node_fn E n state (t ++ [Enter n]) = (Ok u, t') ->
  run_from E (S limit) n state t
  = match edge n (merge state u) with
    | Raise e => (Raise e, t')
    | Ok END => (Ok (merge state u), t')
    | Ok (To m) => run_from E limit m (merge state u) t'
    end.
Proof.
  intros H. cbn [run_from]. unfold_M. rewrite H.
  destruct (edge n (merge state u)) as [[m|]|e]; reflexivity.
Qed.

Lemma collect_inv E state text t u t' :
  collect E state text t = (Ok u, t') ->
  exists c evs,
    content state = Some c /\ t' = t ++ evs /\ visited evs = [] /\
    u = content_update (or_empty c ++ snippets evs).
Proof.
  intros H. destruct (parse_queries E text) as [queries|e] eqn:Hparse.
  - destruct (content state) as [c|] eqn:Hc.
    + destruct (collect_ok E state text t queries c Hparse Hc) as (evs & Heq & Hall).
      rewrite Heq in H. inversion H; subst.
      exists c, evs. repeat split. apply (one_search_each_facts evs queries Hall).
    + unfold collect in H. unfold_M. rewrite Hparse, Hc in H. discriminate.
  - rewrite (collect_raises E state text t e Hparse) in H. discriminate.
Qed.

(** What a node does to [content]: it leaves it as it is, or it replaces
    it by the list it read followed by the snippets it received. *)
Lemma node_fn_content E n state t u t' :
  node_fn E n state t = (Ok u, t') ->
  exists evs,
    t' = t ++ evs /\ visited evs = [] /\
    content_list (merge state u) = content_list state ++ snippets evs /\
    (content (merge state u) = content state \/ content_set (merge state u)) /\
    (n = research_plan -> content_set (merge state u)).
Proof.
  destruct n; cbn [node_fn]; intros H.
  - unfold plan_node in H. unfold_M.
    destruct (task state) as [tk|]; [|discriminate]. inversion H; subst.
    eexists. split; [reflexivity|]. split; [reflexivity|].
    split; [|split; [left; reflexivity|discriminate]].
    unfold content_list. cbn. rewrite app_nil_r. reflexivity.
  - unfold generation_node in H. unfold_M.
    destruct (content state) as [c|] eqn:Hc; [|discriminate].
    destruct (task state) as [tk|]; [|discriminate].
    destruct (plan state) as [pl|]; [|discriminate]. inversion H; subst.
    eexists. split; [reflexivity|]. split; [reflexivity|].
    split; [|split; [left; exact Hc|discriminate]].
    unfold content_list. cbn. rewrite Hc, app_nil_r. reflexivity.
  - unfold reflection_node in H. unfold_M.
    destruct (draft state) as [d|]; [|discriminate]. inversion H; subst.
    eexists. split; [reflexivity|]. split; [reflexivity|].
    split; [|split; [left; reflexivity|discriminate]].
    unfold content_list. cbn. rewrite app_nil_r. reflexivity.
  - unfold research_plan_node in H.
    destruct (task state) as [tk|] eqn:Htk; [|discriminate].
    change (collect E state (model_invoke E t (research_plan_input E tk))
              (t ++ [Invoke (research_plan_input E tk)
                       (model_invoke E t (research_plan_input E tk))])
            = (Ok u, t')) in H.
    apply collect_inv in H as (c & evs & Hc & -> & Hv & ->).
    exists ([Invoke (research_plan_input E tk)
               (model_invoke E t (research_plan_input E tk))] ++ evs).
    rewrite <- app_assoc. split; [reflexivity|]. split; [|split; [|split]].
    + rewrite visited_app, Hv. reflexivity.
    + unfold content_list. cbn. rewrite Hc. reflexivity.
    + right. eexists. reflexivity.
    + intros _. eexists. reflexivity.
  - unfold research_critique_node in H.
    destruct (critique state) as [cr|] eqn:Hcr; [|discriminate].
    change (collect E state (model_invoke E t (research_critique_input E cr))
              (t ++ [Invoke (research_critique_input E cr)
                       (model_invoke E t (research_critique_input E cr))])
            = (Ok u, t')) in H.
    apply collect_inv in H as (c & evs & Hc & -> & Hv & ->).
    exists ([Invoke (research_critique_input E cr)
               (model_invoke E t (research_critique_input E cr))] ++ evs).
    rewrite <- app_assoc. split; [reflexivity|]. split; [|split; [|split]].
    + rewrite visited_app, Hv. reflexivity.
    + unfold content_list. cbn. rewrite Hc. reflexivity.
    + right. eexists. reflexivity.
    + discriminate.
Qed.

Lemma content_set_list state : content_set state ->
  content state = Some (Some (content_list state)).
Proof. intros [l H]. unfold content_list. rewrite H. reflexivity. Qed.

(** A run that ends has extended the content by the snippets of its
    retrieval calls, in call order. *)
Lemma run_from_content E : forall limit n state t final t',
  run_from E limit n state t = (Ok final, t') ->
  exists evs,
    t' = t ++ evs /\
    content_list final = content_list state ++ snippets evs /\
    (content_set state \/ n = planner \/ n = research_plan -> content_set final).
Proof.
  induction limit as [|limit IH]; intros n state t final t' H; [discriminate|].
  destruct (node_fn E n state (t ++ [Enter n])) as [[u|e] t1] eqn:Hnode.
  2:{ rewrite (run_from_raises E n limit state t e t1 Hnode) in H. discriminate. }
  rewrite (run_from_step E n limit state t u t1 Hnode) in H.
  destruct (node_fn_content E n state _ u t1 Hnode)
    as (evs & -> & Hv & Hcl & Hkeep & Hplan).
  assert (Hset : content_set state \/ n = research_plan -> content_set (merge state u)).
  { intros [Hs| ->]; [|apply Hplan; reflexivity].
    destruct Hkeep as [Hk|Hk]; [|exact Hk].
    destruct Hs as [l Hl]. exists l. rewrite Hk. exact Hl. }
  destruct (edge n (merge state u)) as [[m|]|e] eqn:Hedge; [| |discriminate].
  - apply IH in H as (evs' & -> & Hcl' & Hset').
    exists ([Enter n] ++ evs ++ evs'). rewrite <- !app_assoc. split; [reflexivity|].
    split.
    + rewrite Hcl', Hcl, !snippets_app, <- app_assoc. reflexivity.
    + intros Hor. apply Hset'.
      destruct Hor as [Hs|[-> | ->]].
      * left. apply Hset. left. exact Hs.
      * right. right. cbn in Hedge. congruence.
      * left. apply Hset. right. reflexivity.
  - inversion H; subst. exists ([Enter n] ++ evs). rewrite <- !app_assoc.
    split; [reflexivity|]. split.
    + rewrite Hcl, snippets_app. reflexivity.
    + intros [Hs|[-> | ->]]; [apply Hset; left; exact Hs| |]; discriminate.
Qed.

(** *** Runs that reach the end *)

Ltac solve_planned :=
  unfold planned, unplanned, merge, content_update in *; cbn in *;
  repeat match goal with
         | H : _ /\ _ |- _ => destruct H
         end;
  repeat split; eauto.

Lemma planner_step E state t r N :
  unplanned state r N ->
  exists u evs,
    node_fn E planner state t = (Ok u, t ++ evs) /\ visited evs = [] /\
    planned (merge state u) r N.
Proof.
  intros (Htk & Hrest). destruct Htk as [tk Htk].
  cbn [node_fn]. unfold plan_node. unfold_M. rewrite Htk.
  eexists. eexists. split; [reflexivity|]. split; [reflexivity|].
  solve_planned.
Qed.

Lemma research_step E state t r N text input :
  always_parses E ->
  planned state r N ->
  text = model_invoke E t input ->
  exists u evs,
    collect E state text (t ++ [Invoke input text]) = (Ok u, t ++ evs) /\
    visited evs = [] /\
    planned (merge state u) r N /\
    draft (merge state u) = draft state /\
    critique (merge state u) = critique state.
Proof.
  intros Hparses Hst ->.
  destruct (Hparses t input) as [queries Hq].
  destruct Hst as (Htk & Hpl & [c Hc] & Hr & Hm).
  destruct (collect_ok E state _ (t ++ [Invoke input (model_invoke E t input)])
              queries c Hq Hc) as (evs & Heq & Hall).
  exists (content_update (or_empty c ++ snippets evs)),
    ([Invoke input (model_invoke E t input)] ++ evs).
  rewrite Heq, <- app_assoc. split; [reflexivity|]. split.
  - rewrite visited_app. cbn.
    apply (one_search_each_facts evs queries Hall).
  - solve_planned.
Qed.

Lemma research_plan_step E state t r N :
  always_parses E ->
  planned state r N ->
  exists u evs,
    node_fn E research_plan state t = (Ok u, t ++ evs) /\ visited evs = [] /\
    planned (merge state u) r N.
Proof.
  intros Hparses Hst. pose proof Hst as ([tk Htk] & _).
  cbn [node_fn]. rewrite (research_plan_node_eq E state t tk Htk).
  destruct (research_step E state t r N _ (research_plan_input E tk) Hparses Hst
              eq_refl) as (u & evs & Heq & Hv & Hp & _).
  eauto.
Qed.

Lemma generate_step E state t r N :
  planned state r N ->
  exists u evs,
    node_fn E generate state t = (Ok u, t ++ evs) /\ visited evs = [] /\
    planned (merge state u) (r + 1) N /\ is_Some (draft (merge state u)).
Proof.
  intros ([tk Htk] & [pl Hpl] & [c Hc] & Hr & Hm).
  cbn [node_fn]. rewrite (generation_node_eq E state t c tk pl Hc Htk Hpl).
  eexists. eexists. split; [reflexivity|]. split; [reflexivity|].
  unfold planned. cbn. rewrite Hr, Htk, Hpl, Hc, Hm. cbn. repeat split; eauto.
Qed.

Lemma reflect_step E state t r N :
  planned state r N -> is_Some (draft state) ->
  exists u evs,
    node_fn E reflect state t = (Ok u, t ++ evs) /\ visited evs = [] /\
    planned (merge state u) r N /\ is_Some (critique (merge state u)).
Proof.
  intros Hst [d Hd]. cbn [node_fn]. unfold reflection_node. unfold_M. rewrite Hd.
  eexists. eexists. split; [reflexivity|]. split; [reflexivity|].
  split; [solve_planned|]. cbn. eauto.
Qed.

Lemma research_critique_step E state t r N :
  always_parses E ->
  planned state r N -> is_Some (critique state) ->
  exists u evs,
    node_fn E research_critique state t = (Ok u, t ++ evs) /\ visited evs = [] /\
    planned (merge state u) r N.
Proof.
  intros Hparses Hst [cr Hcr].
  cbn [node_fn]. rewrite (research_critique_node_eq E state t cr Hcr).
  destruct (research_step E state t r N _ (research_critique_input E cr) Hparses Hst
              eq_refl) as (u & evs & Heq & Hv & Hp & _).
  eauto.
Qed.

(** From [generate] with revision number [r]: the node runs once, and
    then once more after each of the [N - r] cycles that follow. *)
Lemma revise_loop E (Hparses : always_parses E) (N : Z) :
  forall k limit state t r,
    planned state r N ->
    k = Z.to_nat (N - r) ->
    (3 * k + 1 <= limit)%nat ->
    exists final evs,
      run_from E limit generate state t = (Ok final, t ++ evs) /\
      visited evs = generate :: cycles k /\
      revision_number final = Some (r + 1 + Z.of_nat k).
Proof.
  induction k as [|k IH]; intros limit state t r Hst Hk Hlimit.
  - destruct limit as [|limit]; [lia|].
    destruct (generate_step E state (t ++ [Enter generate]) r N Hst)
      as (u & evs & Hnode & Hv & Hst' & _).
    rewrite (run_from_step E generate limit state t u _ Hnode).
    destruct Hst' as (_ & _ & _ & Hr & Hm).
    cbn [edge]. unfold should_continue. rewrite Hr, Hm.
    destruct (Z.ltb_spec N (r + 1)); [|lia].
    exists (merge state u), ([Enter generate] ++ evs).
    rewrite <- app_assoc. split; [reflexivity|]. split.
    + rewrite visited_app, Hv. reflexivity.
    + rewrite Hr. f_equal. lia.
  - destruct limit as [|[|[|limit]]]; try lia.
    destruct (generate_step E state (t ++ [Enter generate]) r N Hst)
      as (u1 & evs1 & Hnode1 & Hv1 & Hst1 & Hd1).
    rewrite (run_from_step E generate _ state t u1 _ Hnode1).
    pose proof Hst1 as (_ & _ & _ & Hr1 & Hm1).
    cbn [edge]. unfold should_continue. rewrite Hr1, Hm1.
    destruct (Z.ltb_spec N (r + 1)); [lia|].
    set (s1 := merge state u1) in *.
    set (t1 := (t ++ [Enter generate]) ++ evs1).
    destruct (reflect_step E s1 (t1 ++ [Enter reflect]) (r + 1) N Hst1 Hd1)
      as (u2 & evs2 & Hnode2 & Hv2 & Hst2 & Hc2).
    rewrite (run_from_step E reflect _ s1 t1 u2 _ Hnode2). cbn [edge].
    set (s2 := merge s1 u2) in *.
    set (t2 := (t1 ++ [Enter reflect]) ++ evs2).
    destruct (research_critique_step E s2 (t2 ++ [Enter research_critique])
                (r + 1) N Hparses Hst2 Hc2)
      as (u3 & evs3 & Hnode3 & Hv3 & Hst3).
    rewrite (run_from_step E research_critique _ s2 t2 u3 _ Hnode3). cbn [edge].
    set (s3 := merge s2 u3) in *.
    set (t3 := (t2 ++ [Enter research_critique]) ++ evs3).
    destruct (IH limit s3 t3 (r + 1) Hst3) as (final & evs & Hrun & Hv & Hr);
      [lia|lia|].
    exists final,
      ([Enter generate] ++ evs1 ++ [Enter reflect] ++ evs2
       ++ [Enter research_critique] ++ evs3 ++ evs).
    rewrite Hrun. unfold t3, t2, t1. rewrite <- !app_assoc.
    split; [reflexivity|]. split.
    + rewrite !visited_app, Hv1, Hv2, Hv3, Hv. reflexivity.
    + rewrite Hr. f_equal. lia.
Qed.

(** A run from the entry point on a state that holds [task], [content]
    and the two numbers ends when every payload parses and the limit allows
    the three nodes of each pass. *)
Lemma run_completes E (Hparses : always_parses E) input r N limit :
  unplanned input r N ->
  (3 * S (Z.to_nat (N - r)) <= limit)%nat ->
  exists final t,
    stream E input limit [] = (Ok final, t) /\
    visited t = planner :: research_plan :: generate :: cycles (Z.to_nat (N - r)) /\
    revision_number final = Some (r + 1 + Z.of_nat (Z.to_nat (N - r))).
Proof.
  intros Hin Hlimit. unfold stream, entry_point.
  destruct limit as [|[|limit]]; try lia.
  destruct (planner_step E input ([] ++ [Enter planner]) r N Hin)
    as (u1 & evs1 & Hnode1 & Hv1 & Hst1).
  rewrite (run_from_step E planner _ input [] u1 _ Hnode1). cbn [edge].
  set (s1 := merge input u1) in *.
  set (t1 := ([] ++ [Enter planner]) ++ evs1).
  destruct (research_plan_step E s1 (t1 ++ [Enter research_plan]) r N Hparses Hst1)
    as (u2 & evs2 & Hnode2 & Hv2 & Hst2).
  rewrite (run_from_step E research_plan _ s1 t1 u2 _ Hnode2). cbn [edge].
  set (s2 := merge s1 u2) in *.
  set (t2 := (t1 ++ [Enter research_plan]) ++ evs2).
  destruct (revise_loop E Hparses N (Z.to_nat (N - r)) limit s2 t2 r Hst2 eq_refl)
    as (final & evs & Hrun & Hv & Hr); [lia|].
  exists final, (t2 ++ evs). split; [exact Hrun|]. split; [|exact Hr].
  unfold t2, t1. rewrite !visited_app, Hv1, Hv2, Hv. reflexivity.
Qed.


Lemma researching_parses qs : always_parses (Samples.researching qs).
Proof.
  intros t input. exists qs. unfold parse_queries.
  assert (Hreply : model_invoke (Samples.researching qs) t input
                   = py "Here are the queries: " ++ py "{"
                     ++ (quote ++ py "queries" ++ quote ++ py ": ["
                         ++ join (py ", ") (map (fun q => quote ++ q ++ quote) qs)
                         ++ py "]")
                     ++ py "}" ++ []).
  { rewrite <- !app_assoc. reflexivity. }
  rewrite Hreply, json_str_located;
    [| intros H; vm_compute in H; intuition discriminate | intros []].
  cbn [json_loads Queries Samples.researching Samples.essay_env].
  destruct (decide _) as [_|Hne]; [reflexivity|].
  exfalso. apply Hne. unfold Samples.payload. rewrite <- !app_assoc. reflexivity.
Qed.




(** C9, as the code has it. The content only grows: the content a node
    leaves is the content it found followed by the snippets of its
    retrieval calls, in call order. When a run from the entry point ends,
    [content] is the content the run was started with followed by the
    snippets of all the retrieval calls of the run, in call order; it is
    exactly these snippets when the run was started without content. Such
    a run does end when every payload parses and the limit allows three
    nodes per pass. *)
Theorem content_append_only (E : Env) :
  (forall n state t u t', node_fn E n state t = (Ok u, t') ->
     exists evs,
       t' = t ++ evs /\
       content_list (merge state u) = content_list state ++ snippets evs) /\
  (forall input limit final t, stream E input limit [] = (Ok final, t) ->
     content final = Some (Some (content_list input ++ snippets t)) /\
     (content_list input = [] -> content final = Some (Some (snippets t)))) /\
  (always_parses E ->
   forall input r N limit,
     unplanned input r N -> (3 * S (Z.to_nat (N - r)) <= limit)%nat ->
     exists final t, stream E input limit [] = (Ok final, t)).
Proof.
  split; [|split].
  - intros n state t u t' H.
    destruct (node_fn_content E n state t u t' H) as (evs & Ht & _ & Hc & _).
    exists evs. auto.
  - intros input limit final t H. unfold stream, entry_point in H.
    destruct (run_from_content E limit planner input [] final t H)
      as (evs & -> & Hc & Hset).
    assert (Hfinal : content final = Some (Some (content_list input ++ snippets evs))).
    { rewrite <- Hc. apply content_set_list. apply Hset. right. left. reflexivity. }
    split; [exact Hfinal|]. intros Hnil. rewrite Hfinal, Hnil. reflexivity.
  - intros Hparses input r N limit Hin Hlimit.
    destruct (run_completes E Hparses input r N limit Hin Hlimit)
      as (final & t & Hrun & _).
    eauto.
Qed.

Lemma content_append_only_witness :
  exists final t,
    stream (Samples.researching Samples.three_queries) (Samples.essay_input 2) 25 []
    = (Ok final, t) /\
    content final = Some (Some (snippets t)) /\
    length (snippets t) = 6%nat.
Proof.
  destruct (proj2 (proj2 (content_append_only
                            (Samples.researching Samples.three_queries)))
              (researching_parses Samples.three_queries)
              (Samples.essay_input 2) 1 2 25%nat) as (final & t & Hrun).
  { repeat split; eexists; reflexivity. }
  { vm_compute. lia. }
  exists final, t. split; [exact Hrun|].
  destruct (proj1 (proj2 (content_append_only
                            (Samples.researching Samples.three_queries)))
              (Samples.essay_input 2) 25%nat final t Hrun) as [_ Hc].
  split; [apply Hc; reflexivity|].
  assert (Ht : t = snd (stream (Samples.researching Samples.three_queries)
                          (Samples.essay_input 2) 25 []))
    by (rewrite Hrun; reflexivity).
  rewrite Ht. vm_compute. reflexivity.
Defined.

(** C9, as the specification words it, fails: the content after a run is
    not always the snippets of that run alone. A run started with a note in
    [content] ends with the note in front of the snippets. *)
Lemma earlier_content_kept :
  snippets (snd (stream (Samples.researching Samples.three_queries)
                   Samples.resumed_input 25 []))
  = [py "about a"; py "about b"; py "about c"]
  /\ (exists final,
        fst (stream (Samples.researching Samples.three_queries)
               Samples.resumed_input 25 []) = Ok final /\
        content final
        = Some (Some [py "an earlier note"; py "about a"; py "about b"; py "about c"]) /\
        content final
        <> Some (Some (snippets (snd (stream (Samples.researching Samples.three_queries)
                                        Samples.resumed_input 25 []))))).
Proof.
  split; [vm_compute; reflexivity|].
  eexists. split; [vm_compute; reflexivity|].
  split; [vm_compute; reflexivity|]. vm_compute. discriminate.
Qed.

(** *** The shape of the text handed to the decoder *)

Lemma app_cons_split {A} (x y : A) : forall (p r p' q : list A),
  p ++ x :: r = p' ++ y :: q -> (length p < length p')%nat ->
  exists mid, p' = p ++ x :: mid.
Proof.
  induction p as [|a p IH]; intros r p' q Heq Hlen.
  - destruct p' as [|b p']; [cbn in Hlen; lia|].
    injection Heq as <- _. exists p'. reflexivity.
  - destruct p' as [|b p']; [cbn in Hlen; lia|].
    injection Heq as <- Heq. cbn in Hlen.
    destruct (IH r p' q Heq) as [mid ->]; [lia|]. exists mid. reflexivity.
Qed.

Lemma json_str_of_positions (text : str) (i j : nat) :
  find_from text [123%N] 0 = 0 + Z.of_nat i ->
  rfind_from text [125%N] 0 = 0 + Z.of_nat j ->
  (j < length text)%nat -> (j < i)%nat ->
  json_str text = [].
Proof.
  intros Hf Hr Hj Hij. unfold json_str, find, rfind.
  change (py "{") with [123%N]. change (py "}") with [125%N]. rewrite Hf, Hr.
  apply slice_empty. unfold clip.
  destruct (Z.ltb_spec (0 + Z.of_nat j + 1) 0); [lia|].
  destruct (Z.ltb_spec (0 + Z.of_nat i) 0); lia.
Qed.

(** X6. The text a research node hands to the decoder has one of three
    shapes: it is empty; it is a lone closing brace; or it is the part of
    the model's text from the first opening brace to the last closing
    brace. It is empty in particular when the last closing brace comes
    before the first opening brace. Taking the payload of a payload
    changes nothing. *)
Theorem payload_shape (text : str) :
  (json_str text = [] \/ json_str text = py "}" \/
   exists pre mid post,
     text = pre ++ py "{" ++ mid ++ py "}" ++ post /\
     ~ In 123%N pre /\ ~ In 125%N post /\
     json_str text = py "{" ++ mid ++ py "}") /\
  (forall a m b : str,
     text = a ++ py "}" ++ m ++ py "{" ++ b ->
     ~ In 123%N a -> ~ In 123%N m -> ~ In 125%N m -> ~ In 125%N b ->
     json_str text = []) /\
  json_str (json_str text) = json_str text.
Proof.
  assert (Hshape :
    json_str text = [] \/ json_str text = py "}" \/
    exists pre mid post,
      text = pre ++ py "{" ++ mid ++ py "}" ++ post /\
      ~ In 123%N pre /\ ~ In 125%N post /\
      json_str text = py "{" ++ mid ++ py "}").
  { destruct (find_from_spec 123%N text 0) as [[Hn _]|(p & r & Heq & Hp & Hf)].
    { destruct (json_str_absent text (or_introl Hn)); auto. }
    destruct (rfind_from_spec 125%N text 0) as [[Hn _]|(p' & q & Heq' & Hq & Hr)];
      [lia| |].
    { destruct (json_str_absent text (or_intror Hn)); auto. }
    destruct (Nat.lt_trichotomy (length p) (length p')) as [Hlt|[Hlen|Hgt]].
    - right. right. rewrite Heq in Heq'.
      destruct (app_cons_split _ _ p r p' q Heq' Hlt) as [mid ->].
      assert (Htext : text = p ++ py "{" ++ mid ++ py "}" ++ q).
      { rewrite Heq, Heq', <- !app_assoc. reflexivity. }
      exists p, mid, q.
      split; [exact Htext|]. split; [exact Hp|]. split; [exact Hq|].
      rewrite Htext. apply (json_str_located p mid q Hp Hq).
    - exfalso. rewrite Heq in Heq'.
      apply app_inj_1 in Heq' as [_ Heq']; [discriminate|exact Hlen].
    - left. apply (json_str_of_positions text (length p) (length p') Hf Hr);
        [|exact Hgt].
      rewrite Heq', length_app. cbn [length]. lia. }
  split; [exact Hshape|]. split.
  - intros a m b -> Ha Hm Hm' Hb. clear Hshape.
    change (py "{") with [123%N]. change (py "}") with [125%N].
    set (text := a ++ [125%N] ++ m ++ [123%N] ++ b).
    destruct (find_from_spec 123%N text 0) as [[Hn _]|(p & r & Heq & Hp & Hf)].
    { exfalso. apply Hn. unfold text. rewrite !in_app_iff. cbn. tauto. }
    destruct (rfind_from_spec 125%N text 0) as [[Hn _]|(p' & q & Heq' & Hq & Hr)];
      [lia| |].
    { exfalso. apply Hn. unfold text. rewrite !in_app_iff. cbn. tauto. }
    assert (p = a ++ [125%N] ++ m) as ->.
    { apply (find_unique 123%N p r (a ++ [125%N] ++ m) b Hp).
      - rewrite !in_app_iff. cbn. intros [H|[[H|[]]|H]]; [tauto|discriminate|tauto].
      - rewrite <- Heq. unfold text. rewrite <- !app_assoc. reflexivity. }
    assert (p' = a) as ->.
    { apply (rfind_unique 125%N p' q a (m ++ [123%N] ++ b) Hq).
      - rewrite !in_app_iff. cbn. intros [H|[[H|[]]|H]]; [tauto|discriminate|tauto].
      - rewrite <- Heq'. reflexivity. }
    apply (json_str_of_positions text (length (a ++ [125%N] ++ m)) (length a) Hf Hr).
    + unfold text. rewrite !length_app. cbn [length]. lia.
    + rewrite !length_app. cbn [length]. lia.
  - destruct Hshape as [-> | [-> | (pre & mid & post & _ & _ & _ & ->)]].
    + reflexivity.
    + vm_compute. reflexivity.
    + apply (json_str_located [] mid []); intros [].
Qed.

Lemma payload_shape_witness :
  json_str (py "} and then {") = [].
Proof.
  exact (proj1 (proj2 (payload_shape (py "} and then {")))
           [] (py " and then ") [] eq_refl
           (fun H => H)
           (fun H => ltac:(vm_compute in H; intuition discriminate))
           (fun H => ltac:(vm_compute in H; intuition discriminate))
           (fun H => H)).
Defined.

(** *** The keys the nodes read *)

Lemma is_Some_None {A} : ~ is_Some (@None A).
Proof. intros [x H]. discriminate. Qed.

Lemma collect_no_content E state text t queries :
  parse_queries E text = Ok queries -> content state = None ->
  collect E state text t = (Raise (KeyError "content"), t).
Proof.
  intros Hparse Hc. unfold collect. unfold_M. rewrite Hparse, Hc. reflexivity.
Qed.



(** *** What a run does, whatever its outcome *)

Lemma invokes_app (t u : trace) : invokes (t ++ u) = (invokes t + invokes u)%nat.
Proof. unfold invokes. rewrite List.filter_app, length_app. reflexivity. Qed.

Lemma executions_app n (t u : trace) :
  executions n (t ++ u) = (executions n t + executions n u)%nat.
Proof.
  unfold executions, executions_of.
  rewrite visited_app, List.filter_app, length_app. reflexivity.
Qed.

Lemma one_search_each_quiet evs queries :
  one_search_each evs queries -> invokes evs = 0%nat /\ Forall two_results evs.
Proof.
  induction 1 as [|e q evs queries [r ->] _ [IH1 IH2]]; [split; constructor|].
  split; [exact IH1|]. constructor; [reflexivity|exact IH2].
Qed.

Lemma collect_events E state text t :
  exists evs,
    snd (collect E state text t) = t ++ evs /\ visited evs = [] /\
    invokes evs = 0%nat /\ Forall two_results evs.
Proof.
  destruct (parse_queries E text) as [queries|e] eqn:Hparse.
  - destruct (content state) as [c|] eqn:Hc.
    + destruct (collect_ok E state text t queries c Hparse Hc) as (evs & Heq & Hall).
      exists evs. rewrite Heq. split; [reflexivity|].
      split; [apply (one_search_each_facts evs queries Hall)|].
      apply (one_search_each_quiet evs queries Hall).
    + exists []. rewrite (collect_no_content E state text t queries Hparse Hc).
      rewrite app_nil_r. repeat split. constructor.
  - exists []. rewrite (collect_raises E state text t e Hparse), app_nil_r.
    repeat split. constructor.
Qed.

(** The events of one node: no node is entered, the model is called at
    most once, and exactly once when the node returns an update. *)
Lemma node_fn_events E n state t :
  exists evs,
    snd (node_fn E n state t) = t ++ evs /\ visited evs = [] /\
    (invokes evs <= 1)%nat /\ Forall two_results evs /\
    (forall u, fst (node_fn E n state t) = Ok u -> invokes evs = 1%nat).
Proof.
  assert (Hnone : exists evs : trace,
            t = t ++ evs /\ visited evs = [] /\ (invokes evs <= 1)%nat /\
            Forall two_results evs).
  { exists []. rewrite app_nil_r. repeat split; [cbn; lia|constructor]. }
  assert (Hone : forall input reply, exists evs : trace,
            t ++ [Invoke input reply] = t ++ evs /\ visited evs = [] /\
            (invokes evs <= 1)%nat /\ Forall two_results evs /\ invokes evs = 1%nat).
  { intros input reply. exists [Invoke input reply].
    repeat split; [cbn; lia|]. constructor; [exact I|constructor]. }
  assert (Hcollect : forall input reply,
            exists evs,
              snd (collect E state reply (t ++ [Invoke input reply])) = t ++ evs /\
              visited evs = [] /\ (invokes evs <= 1)%nat /\ Forall two_results evs /\
              (forall u, fst (collect E state reply (t ++ [Invoke input reply])) = Ok u ->
                         invokes evs = 1%nat)).
  { intros input reply.
    destruct (collect_events E state reply (t ++ [Invoke input reply]))
      as (evs & Heq & Hv & Hi & Hall).
    exists ([Invoke input reply] ++ evs). rewrite Heq, <- app_assoc.
    split; [reflexivity|]. rewrite visited_app, invokes_app, Hv, Hi.
    split; [reflexivity|]. split; [cbn; lia|]. split; [|intros; reflexivity].
    constructor; [exact I|exact Hall]. }
  destruct n; cbn [node_fn].
  - unfold plan_node. unfold_M. destruct (task state) as [tk|]; cbn [fst snd].
    + destruct (Hone [SystemMessage PLAN_PROMPT; HumanMessage tk]
                  (model_invoke E t [SystemMessage PLAN_PROMPT; HumanMessage tk]))
        as (evs & ? & ? & ? & ? & ?). exists evs. auto.
    + destruct Hnone as (evs & ? & ? & ? & ?). exists evs.
      repeat split; try assumption. discriminate.
  - unfold generation_node. unfold_M.
    destruct (content state) as [c|]; cbn [fst snd];
      [destruct (task state) as [tk|]; cbn [fst snd];
       [destruct (plan state) as [pl|]; cbn [fst snd]|]|].
    + destruct (Hone (generation_input (or_empty c) tk pl)
                  (model_invoke E t (generation_input (or_empty c) tk pl)))
        as (evs & ? & ? & ? & ? & ?). exists evs. auto.
    + destruct Hnone as (evs & ? & ? & ? & ?). exists evs.
      repeat split; try assumption. discriminate.
    + destruct Hnone as (evs & ? & ? & ? & ?). exists evs.
      repeat split; try assumption. discriminate.
    + destruct Hnone as (evs & ? & ? & ? & ?). exists evs.
      repeat split; try assumption. discriminate.
  - unfold reflection_node. unfold_M. destruct (draft state) as [d|]; cbn [fst snd].
    + destruct (Hone [SystemMessage REFLECTION_PROMPT; HumanMessage d]
                  (model_invoke E t [SystemMessage REFLECTION_PROMPT; HumanMessage d]))
        as (evs & ? & ? & ? & ? & ?). exists evs. auto.
    + destruct Hnone as (evs & ? & ? & ? & ?). exists evs.
      repeat split; try assumption. discriminate.
  - destruct (task state) as [tk|] eqn:Htk.
    + rewrite (research_plan_node_eq E state t tk Htk). apply Hcollect.
    + unfold research_plan_node. unfold_M. rewrite Htk. cbn [fst snd].
      destruct Hnone as (evs & ? & ? & ? & ?). exists evs.
      repeat split; try assumption. discriminate.
  - destruct (critique state) as [cr|] eqn:Hcr.
    + rewrite (research_critique_node_eq E state t cr Hcr). apply Hcollect.
    + unfold research_critique_node. unfold_M. rewrite Hcr. cbn [fst snd].
      destruct Hnone as (evs & ? & ? & ? & ?). exists evs.
      repeat split; try assumption. discriminate.
Qed.

Lemma edge_is_edge n state m : edge n state = Ok (To m) -> is_edge n m = true.
Proof.
  destruct n; cbn [edge]; try (intros [= <-]; reflexivity).
  unfold should_continue.
  destruct (revision_number state); [|discriminate].
  destruct (max_revisions state) as [mx|]; [|discriminate].
  destruct (mx <? z); intros [= <-]. reflexivity.
Qed.

Lemma edge_END n state : edge n state = Ok END -> n = generate.
Proof. destruct n; cbn [edge]; try discriminate. reflexivity. Qed.

(** The events of a run, whatever its outcome. *)
Lemma run_from_events E : forall limit n state t,
  exists evs,
    snd (run_from E limit n state t) = t ++ evs /\
    chain (visited evs) = true /\
    (visited evs = [] \/ head (visited evs) = Some n) /\
    (invokes evs <= length (visited evs))%nat /\
    Forall two_results evs /\
    (forall final, fst (run_from E limit n state t) = Ok final ->
       invokes evs = length (visited evs) /\ last (visited evs) = Some generate).
Proof.
  induction limit as [|limit IH]; intros n state t.
  - exists []. cbn. rewrite app_nil_r. repeat split; auto; try discriminate.
  - destruct (node_fn_events E n state (t ++ [Enter n]))
      as (evs & Hsnd & Hv & Hle & Hall & Hone).
    destruct (node_fn E n state (t ++ [Enter n])) as [[u|e] t1] eqn:Hnode;
      cbn [fst snd] in *; subst t1.
    2:{ rewrite (run_from_raises E n limit state t e _ Hnode). cbn [fst snd].
        exists ([Enter n] ++ evs). rewrite <- app_assoc, visited_app, invokes_app, Hv.
        split; [reflexivity|]. split; [reflexivity|]. split; [right; reflexivity|].
        split; [cbn; lia|]. split; [|discriminate].
        constructor; [exact I|exact Hall]. }
    rewrite (run_from_step E n limit state t u _ Hnode).
    specialize (Hone u eq_refl).
    destruct (edge n (merge state u)) as [[m|]|e] eqn:Hedge; cbn [fst snd].
    + destruct (IH m (merge state u) ((t ++ [Enter n]) ++ evs))
        as (evs' & Hsnd' & Hch & Hhd & Hle' & Hall' & Hfin).
      remember (run_from E limit m (merge state u) ((t ++ [Enter n]) ++ evs)) as R.
      exists ([Enter n] ++ evs ++ evs').
      rewrite Hsnd', <- !app_assoc, !visited_app, !invokes_app, Hv, Hone.
      split; [reflexivity|].
      change (visited [Enter n]) with [n]. change (invokes [Enter n]) with 0%nat.
      cbn [app Nat.add].
      split; [|split; [right; reflexivity|split; [cbn [length]; lia|split]]].
      * destruct Hhd as [Hnil|Hhd].
        -- rewrite Hnil. reflexivity.
        -- destruct (visited evs') as [|m' l]; [reflexivity|].
           injection Hhd as ->. cbn [chain]. fold (chain (m :: l)).
           rewrite (edge_is_edge n _ m Hedge). exact Hch.
      * constructor; [exact I|]. apply Forall_app. split; assumption.
      * intros final Hfinal. destruct (Hfin final Hfinal) as [Hi Hl].
        split; [cbn [length]; lia|].
        destruct (visited evs') as [|m' l]; [discriminate|]. exact Hl.
    + exists ([Enter n] ++ evs).
      rewrite <- !app_assoc, !visited_app, !invokes_app, Hv, Hone.
      apply edge_END in Hedge. subst n.
      change (visited [Enter generate]) with [generate].
      change (invokes [Enter generate]) with 0%nat. cbn [app Nat.add length].
      split; [reflexivity|]. split; [reflexivity|]. split; [right; reflexivity|].
      split; [lia|]. split; [constructor; [exact I|exact Hall]|].
      intros _ _. split; reflexivity.
    + exists ([Enter n] ++ evs).
      rewrite <- !app_assoc, !visited_app, !invokes_app, Hv.
      split; [reflexivity|]. split; [reflexivity|]. split; [right; reflexivity|].
      split; [cbn; lia|]. split; [|discriminate].
      constructor; [exact I|exact Hall].
Qed.

(** X10. In every run from the entry point, whatever its outcome, the
    nodes are executed along the edges given to the builder: the first is
    [planner], and each next one is the node an edge leads to from the one
    before, [reflect] being the only node ever executed after [generate].
    A run that ends has [generate] as its last node. *)
Theorem run_follows_edges (E : Env) (input : AgentState) (limit : nat) :
  chain (visited (snd (stream E input limit []))) = true /\
  (visited (snd (stream E input limit [])) = [] \/
   head (visited (snd (stream E input limit []))) = Some planner) /\
  (forall final, fst (stream E input limit []) = Ok final ->
     last (visited (snd (stream E input limit []))) = Some generate).
Proof.
  unfold stream, entry_point.
  destruct (run_from_events E limit planner input [])
    as (evs & -> & Hch & Hhd & _ & _ & Hfin).
  cbn [app]. split; [exact Hch|]. split; [exact Hhd|].
  intros final Hfinal. apply (Hfin final Hfinal).
Qed.


(** *** What a run that ends leaves in the state *)

Lemma is_Some_over {A} (new old : option A) :
  is_Some old -> is_Some (over new old).
Proof. destruct new; cbn; eauto. Qed.

(** The keys other than [content] that a node writes. *)
Lemma node_fn_writes E n state t u t' :
  node_fn E n state t = (Ok u, t') ->
  task u = None /\ max_revisions u = None /\
  revision_number u
  = (if node_eqb generate n
     then Some (default 1 (revision_number state) + 1) else None) /\
  (n = generate -> is_Some (draft u)) /\
  (n = planner -> is_Some (plan u)).
Proof.
  destruct n; cbn [node_fn node_eqb]; intros H.
  - unfold plan_node in H. unfold_M.
    destruct (task state); [|discriminate]. inversion H; subst. cbn.
    repeat split; eauto; discriminate.
  - unfold generation_node in H. unfold_M.
    destruct (content state); [|discriminate].
    destruct (task state); [|discriminate].
    destruct (plan state); [|discriminate]. inversion H; subst. cbn.
    repeat split; eauto; discriminate.
  - unfold reflection_node in H. unfold_M.
    destruct (draft state); [|discriminate]. inversion H; subst. cbn.
    repeat split; eauto; discriminate.
  - destruct (task state) as [tk|] eqn:Htk.
    + rewrite (research_plan_node_eq E state t tk Htk) in H.
      apply collect_inv in H as (c & evs & _ & _ & _ & ->). cbn.
      repeat split; eauto; discriminate.
    + unfold research_plan_node in H. unfold_M. rewrite Htk in H. discriminate.
  - destruct (critique state) as [cr|] eqn:Hcr.
    + rewrite (research_critique_node_eq E state t cr Hcr) in H.
      apply collect_inv in H as (c & evs & _ & _ & _ & ->). cbn.
      repeat split; eauto; discriminate.
    + unfold research_critique_node in H. unfold_M. rewrite Hcr in H. discriminate.
Qed.

Lemma executions_enter n m :
  executions n [Enter m] = if node_eqb n m then 1%nat else 0%nat.
Proof. unfold executions, executions_of. cbn. destruct (node_eqb n m); reflexivity. Qed.

Lemma executions_quiet n evs : visited evs = [] -> executions n evs = 0%nat.
Proof. unfold executions. intros ->. reflexivity. Qed.

Lemma run_from_final E : forall limit n state t final t',
  run_from E limit n state t = (Ok final, t') ->
  exists evs,
    t' = t ++ evs /\
    task final = task state /\
    max_revisions final = max_revisions state /\
    (1 <= executions generate evs)%nat /\
    revision_number final
    = Some (default 1 (revision_number state) + Z.of_nat (executions generate evs)) /\
    (exists r m, revision_number final = Some r /\ max_revisions final = Some m /\
                 m < r) /\
    is_Some (draft final) /\
    (is_Some (plan state) \/ n = planner -> is_Some (plan final)).
Proof.
  induction limit as [|limit IH]; intros n state t final t' H; [discriminate|].
  destruct (node_fn E n state (t ++ [Enter n])) as [[u|e] t1] eqn:Hnode.
  2:{ rewrite (run_from_raises E n limit state t e t1 Hnode) in H. discriminate. }
  rewrite (run_from_step E n limit state t u t1 Hnode) in H.
  destruct (node_fn_writes E n state _ u t1 Hnode) as (Htk & Hmx & Hrev & Hdr & Hpl).
  destruct (node_fn_content E n state _ u t1 Hnode) as (evs & -> & Hv & _).
  assert (Hplan : is_Some (plan state) \/ n = planner -> is_Some (plan (merge state u))).
  { intros [Hs| ->]; cbn.
    - apply is_Some_over, Hs.
    - cbn [merge plan]. destruct (Hpl eq_refl) as [p ->]. cbn. eauto. }
  destruct (edge n (merge state u)) as [[m|]|e] eqn:Hedge; [| |discriminate].
  - apply IH in H as (evs' & -> & Htk' & Hmx' & Hge & Hrev' & Hend & Hdraft & Hplan').
    exists ([Enter n] ++ evs ++ evs'). rewrite <- !app_assoc.
    split; [reflexivity|].
    split; [rewrite Htk'; cbn [merge task]; rewrite Htk; reflexivity|].
    split; [rewrite Hmx'; cbn [merge max_revisions]; rewrite Hmx; reflexivity|].
    rewrite !executions_app, executions_enter, (executions_quiet _ evs Hv).
    split; [lia|]. split; [|split; [exact Hend|split; [exact Hdraft|]]].
    + rewrite Hrev'. cbn [merge revision_number]. rewrite Hrev.
      destruct (node_eqb generate n); unfold over, default; cbn [from_option id];
        f_equal; lia.
    + intros Hor. apply Hplan'. left. apply Hplan, Hor.
  - inversion H; subst. apply edge_END in Hedge as Hn. subst n.
    exists ([Enter generate] ++ evs). rewrite <- !app_assoc.
    split; [reflexivity|]. cbn [merge task max_revisions]. rewrite Htk, Hmx.
    split; [reflexivity|]. split; [reflexivity|].
    rewrite !executions_app, executions_enter, (executions_quiet _ evs Hv).
    cbn [node_eqb Nat.add]. split; [lia|].
    cbn [merge revision_number]. rewrite Hrev. cbn [node_eqb over].
    split; [f_equal; lia|]. split.
    + cbn [edge] in Hedge. unfold should_continue in Hedge.
      cbn [merge revision_number max_revisions] in Hedge.
      rewrite Hrev, Hmx in Hedge. cbn [node_eqb over] in Hedge.
      destruct (max_revisions state) as [mx|]; [|discriminate].
      destruct (Z.ltb_spec mx (default 1 (revision_number state) + 1));
        [|discriminate].
      exists (default 1 (revision_number state) + 1), mx. auto.
    + split.
      * cbn [merge draft]. destruct (Hdr eq_refl) as [d ->]. cbn. eauto.
      * intros [Hs|Hs]; [|discriminate]. cbn [merge plan]. apply is_Some_over, Hs.
Qed.

(** X8. A run from the entry point that ends leaves [task] and
    [max_revisions] as the input had them, and its final state holds a
    plan and a draft. *)
Theorem run_keeps_task_and_bound (E : Env) (input final : AgentState)
    (limit : nat) (t : trace) :
  stream E input limit [] = (Ok final, t) ->
  task final = task input /\
  max_revisions final = max_revisions input /\
  is_Some (plan final) /\ is_Some (draft final).
Proof.
  intros H. unfold stream, entry_point in H.
  destruct (run_from_final E limit planner input [] final t H)
    as (evs & _ & Htk & Hmx & _ & _ & _ & Hd & Hp).
  repeat split; try assumption. apply Hp. right. reflexivity.
Qed.

Lemma run_keeps_task_and_bound_witness :
  exists final t,
    stream (Samples.researching Samples.three_queries) (Samples.essay_input 2) 25 []
    = (Ok final, t) /\
    task final = Some (py "what is the difference between langchain and langsmith") /\
    max_revisions final = Some 2.
Proof.
  eexists. eexists. split; [vm_compute; reflexivity|].
  match goal with
  | |- task ?f = _ /\ _ =>
      destruct (run_keeps_task_and_bound (Samples.researching Samples.three_queries)
                  (Samples.essay_input 2) f 25 _ ltac:(vm_compute; reflexivity))
        as (Htk & Hmx & _)
  end.
  split; [exact Htk|exact Hmx].
Defined.

(** X9. A run from the entry point that ends has executed [generate] at
    least once, and its final [revision_number] is the one of the input,
    or 1 when the input has none, plus the number of executions of
    [generate]; it is strictly greater than [max_revisions], which the
    state therefore holds. *)
Theorem run_ends_above_bound (E : Env) (input final : AgentState)
    (limit : nat) (t : trace) :
  stream E input limit [] = (Ok final, t) ->
  (1 <= executions generate t)%nat /\
  revision_number final
  = Some (default 1 (revision_number input) + Z.of_nat (executions generate t)) /\
  exists r m, revision_number final = Some r /\ max_revisions input = Some m /\ m < r.
Proof.
  intros H. unfold stream, entry_point in H.
  destruct (run_from_final E limit planner input [] final t H)
    as (evs & -> & _ & Hmx & Hge & Hrev & (r & m & Hr & Hm & Hlt) & _).
  cbn [app]. split; [exact Hge|]. split; [exact Hrev|].
  exists r, m. rewrite <- Hmx. auto.
Qed.

Lemma run_ends_above_bound_witness :
  exists final t,
    stream (Samples.researching Samples.three_queries) Samples.unrevised_input 25 []
    = (Ok final, t) /\
    revision_number final = Some (1 + Z.of_nat (executions generate t)).
Proof.
  eexists. eexists. split; [vm_compute; reflexivity|].
  match goal with
  | |- revision_number ?f = Some (1 + Z.of_nat (executions generate ?t)) =>
      exact (proj1 (proj2 (run_ends_above_bound
                             (Samples.researching Samples.three_queries)
                             Samples.unrevised_input f 25 t
                             ltac:(vm_compute; reflexivity))))
  end.
Defined.

(** *** Inputs without a revision number or without a bound *)












(** *** What the writer is shown *)

Lemma join_holds (sep : str) (l : list str) (x : str) :
  In x l -> exists before after, join sep l = before ++ x ++ after.
Proof.
  induction l as [|y l IH]; [intros []|].
  intros [->|Hin].
  - destruct l as [|z l].
    + exists [], []. cbn. rewrite app_nil_r. reflexivity.
    + exists [], (sep ++ join sep (z :: l)). reflexivity.
  - destruct l as [|z l]; [destruct Hin|].
    destruct (IH Hin) as (before & after & Heq).
    exists (y ++ sep ++ before), after.
    change (join sep (y :: z :: l)) with (y ++ sep ++ join sep (z :: l)).
    rewrite Heq, <- !app_assoc. reflexivity.
Qed.

Lemma WRITER_PROMPT_shape :
  exists head tail, forall content, WRITER_PROMPT content = head ++ content ++ tail.
Proof. eexists. eexists. intros content. unfold WRITER_PROMPT. reflexivity. Qed.

(** X14. The generate node shows the writer everything it has: the
    system message of its call of the model holds every entry of
    [content] as it stands, and the user message holds the task and the
    plan. With no content yet, the system message is the writer prompt
    around an empty text. *)
Theorem writer_sees_all_content (E : Env) (state : AgentState) (t : trace)
    (c : option (list str)) (tk pl : str) :
  content state = Some c -> task state = Some tk -> plan state = Some pl ->
  exists sys human reply update,
    generation_node E state t
    = (Ok update, t ++ [Invoke [SystemMessage sys; HumanMessage human] reply]) /\
    draft update = Some reply /\
    (forall x, In x (or_empty c) -> contains sys x = true) /\
    contains human tk = true /\ contains human pl = true /\
    (or_empty c = [] -> sys = WRITER_PROMPT []).
Proof.
  intros Hc Htk Hpl.
  rewrite (generation_node_eq E state t c tk pl Hc Htk Hpl).
  unfold generation_input. do 4 eexists. split; [reflexivity|].
  split; [reflexivity|]. split; [|split; [|split]].
  - intros x Hin. apply ReActFacts.contains_iff.
    destruct (join_holds (py "

") (or_empty c) x Hin) as (before & after & Heq).
    destruct WRITER_PROMPT_shape as (head & tail & Hw). rewrite Hw, Heq.
    exists (head ++ before), (after ++ tail). rewrite <- !app_assoc. reflexivity.
  - apply ReActFacts.contains_iff. exists [], (py "

Here is my plan:

" ++ pl). reflexivity.
  - apply ReActFacts.contains_iff. exists (tk ++ py "

Here is my plan:

"), []. rewrite app_nil_r, <- app_assoc. reflexivity.
  - intros ->. reflexivity.
Qed.

Lemma writer_sees_all_content_witness :
  exists sys human reply update,
    generation_node (Samples.researching Samples.three_queries) Samples.unnumbered []
    = (Ok update, [] ++ [Invoke [SystemMessage sys; HumanMessage human] reply]) /\
    contains sys (py "LangSmith is a platform.") = true.
Proof.
  destruct (writer_sees_all_content (Samples.researching Samples.three_queries)
              Samples.unnumbered [] (Some [py "LangSmith is a platform."])
              (py "what is the difference between langchain and langsmith")
              (py "1. Introduction 2. Comparison 3. Conclusion")
              eq_refl eq_refl eq_refl)
    as (sys & human & reply & update & Heq & _ & Hall & _).
  exists sys, human, reply, update. split; [exact Heq|].
  apply Hall. left. reflexivity.
Defined.



End EssayFacts.
